(** * unified-doc-agent: extraction, chunking, embedding and the answer workflow

    A shallow embedding of the Go packages [processing], [ingestion] and
    [graph] together with the ingestion loop of [cmd/agent/main.go], and the
    properties of the design document checked against it. *)

From Stdlib Require Import Ascii String ZArith NArith Lia Bool Arith List.
From Stdlib Require Import Numbers.DecimalString.
Import ListNotations.

(* ================================================================== *)
(** ** Go strings *)
(* ================================================================== *)

(** A Go [string] is an immutable sequence of bytes; [len] counts bytes and
    [s[i:j]] slices bytes.  An [ascii] is one 8-bit byte. *)
Definition gostring := list ascii.

Definition str (s : string) : gostring := list_ascii_of_string s.

Definition byteval (c : ascii) : N := N_of_ascii c.

(** [len(s)] as a Go [int]. *)
Definition len (s : gostring) : Z := Z.of_nat (length s).

(** Go's [int] is 64 bits wide and wraps around silently. *)
Definition wrap (z : Z) : Z := ((z + 2 ^ 63) mod 2 ^ 64 - 2 ^ 63)%Z.
Definition int_add (a b : Z) : Z := wrap (a + b).
Definition int_sub (a b : Z) : Z := wrap (a - b).

(** [s[i:j]] for indices already known to be in range. *)
Definition slice (s : gostring) (i j : nat) : gostring :=
  firstn (j - i) (skipn i s).

(** [s[i:j]] on [int] indices: a run-time panic unless [0 <= i <= j <= len(s)]. *)
Definition slice_checked (s : gostring) (i j : Z) : option gostring :=
  if ((0 <=? i) && (i <=? j) && (j <=? len s))%Z
  then Some (slice s (Z.to_nat i) (Z.to_nat j))
  else None.

Fixpoint gostring_eqb (a b : gostring) : bool :=
  match a, b with
  | [], [] => true
  | x :: a', y :: b' => Ascii.eqb x y && gostring_eqb a' b'
  | _, _ => false
  end.

Definition is_empty (s : gostring) : bool :=
  match s with [] => true | _ => false end.

(** Decimal rendering used by the [%d] verb. *)
Definition itoa (n : nat) : gostring :=
  str (NilZero.string_of_uint (Nat.to_uint n)).

(* ------------------------------------------------------------------ *)
(** *** [unicode/utf8] and [unicode.IsSpace] *)

Definition RuneError : N := 65533.
Definition RuneSelf : N := 128.

(** [utf8.DecodeRuneInString]: the first rune of [s] and its width in bytes;
    an invalid or short encoding decodes to [(RuneError, 1)]. *)
Definition DecodeRuneInString (s : gostring) : N * nat :=
  match s with
  | [] => (RuneError, 0)
  | c0 :: t =>
    let s0 := byteval c0 in
    if (s0 <? RuneSelf)%N then (s0, 1)
    else if ((s0 <? 194) || (244 <? s0))%N then (RuneError, 1)
    else
      let sz := if (s0 <? 224)%N then 2 else if (s0 <? 240)%N then 3 else 4 in
      let lo := if (s0 =? 224)%N then 160%N
                else if (s0 =? 240)%N then 144%N else 128%N in
      let hi := if (s0 =? 237)%N then 159%N
                else if (s0 =? 244)%N then 143%N else 191%N in
      if length s <? sz then (RuneError, 1)
      else match t with
      | [] => (RuneError, 1)
      | c1 :: t1 =>
        let s1 := byteval c1 in
        if ((s1 <? lo) || (hi <? s1))%N then (RuneError, 1)
        else if sz <=? 2
        then (N.lor (N.shiftl (N.land s0 31) 6) (N.land s1 63), 2)
        else match t1 with
        | [] => (RuneError, 1)
        | c2 :: t2 =>
          let s2 := byteval c2 in
          if ((s2 <? 128) || (191 <? s2))%N then (RuneError, 1)
          else if sz <=? 3
          then (N.lor (N.lor (N.shiftl (N.land s0 15) 12)
                             (N.shiftl (N.land s1 63) 6))
                      (N.land s2 63), 3)
          else match t2 with
          | [] => (RuneError, 1)
          | c3 :: _ =>
            let s3 := byteval c3 in
            if ((s3 <? 128) || (191 <? s3))%N then (RuneError, 1)
            else (N.lor (N.lor (N.lor (N.shiftl (N.land s0 7) 18)
                                      (N.shiftl (N.land s1 63) 12))
                               (N.shiftl (N.land s2 63) 6))
                        (N.land s3 63), 4)
          end
        end
      end
  end.

(** [utf8.RuneStart]: the byte is not a continuation byte. *)
Definition RuneStart (c : ascii) : bool :=
  negb (N.land (byteval c) 192 =? 128)%N.

(** The backwards scan of [utf8.DecodeLastRuneInString]: from [start], step
    down while [start >= lim] until a rune-start byte is met. *)
Fixpoint scan_rune_start (s : gostring) (steps start : nat) : option nat :=
  match steps with
  | O => None                       (* ran below [lim] *)
  | S k =>
    match nth_error s start with
    | Some c =>
      if RuneStart c then Some start
      else match start with
           | O => None
           | S p => scan_rune_start s k p
           end
    | None => None
    end
  end.

(** [utf8.DecodeLastRuneInString]: the last rune of [s] and its width. *)
Definition DecodeLastRuneInString (s : gostring) : N * nat :=
  let e := length s in
  match e with
  | O => (RuneError, 0)
  | S last =>
    match nth_error s last with
    | None => (RuneError, 0)
    | Some c =>
      if (byteval c <? RuneSelf)%N then (byteval c, 1)
      else
        let lim := e - 4 in
        let start :=
          match last with
          | O => 0
          | S p =>
            match scan_rune_start s (last - lim) p with
            | Some i => i
            | None => if lim =? 0 then 0 else lim - 1
            end
          end in
        let '(r, size) := DecodeRuneInString (slice s start e) in
        if start + size =? e then (r, size) else (RuneError, 1)
    end
  end.

(** [unicode.IsSpace]: the Latin-1 cases, then the [White_Space] table. *)
Definition IsSpace (r : N) : bool :=
  if (r <=? 255)%N
  then ((9 <=? r) && (r <=? 13) || (r =? 32) || (r =? 133) || (r =? 160))%N
  else ((r =? 5760) || ((8192 <=? r) && (r <=? 8202)) || (r =? 8232)
        || (r =? 8233) || (r =? 8239) || (r =? 8287) || (r =? 12288))%N.

(** The [asciiSpace] table of package [strings]. *)
Definition asciiSpace (c : ascii) : bool :=
  let v := byteval c in
  ((9 <=? v) && (v <=? 13) || (v =? 32))%N.

(* ------------------------------------------------------------------ *)
(** *** [strings.TrimSpace] *)

(** [indexFunc(s, f, false)]: byte index of the first rune on which [f] is
    false, [None] for Go's [-1].  [rest] is [s[i:]]; every step consumes at
    least one byte, so [fuel = len(rest)] always reaches the end. *)
Fixpoint indexFunc_false (fuel : nat) (f : N -> bool) (rest : gostring)
         (i : nat) : option nat :=
  match fuel with
  | O => None
  | S fuel' =>
    match rest with
    | [] => None
    | _ :: _ =>
      let '(r, size) := DecodeRuneInString rest in
      if f r then indexFunc_false fuel' f (skipn size rest) (i + size)
      else Some i
    end
  end.

(** [lastIndexFunc(s, f, false)]: byte index of the last rune on which [f] is
    false, walking [i] down from [len(s)]. *)
Fixpoint lastIndexFunc_false (fuel : nat) (f : N -> bool) (s : gostring)
         (i : nat) : option nat :=
  match fuel with
  | O => None
  | S fuel' =>
    if 0 <? i then
      let '(r, size) := DecodeLastRuneInString (firstn i s) in
      let i' := i - size in
      if f r then lastIndexFunc_false fuel' f s i' else Some i'
    else None
  end.

Definition TrimLeftFunc (s : gostring) (f : N -> bool) : gostring :=
  match indexFunc_false (length s) f s 0 with
  | None => []
  | Some i => skipn i s
  end.

Definition TrimRightFunc (s : gostring) (f : N -> bool) : gostring :=
  match lastIndexFunc_false (length s) f s (length s) with
  | Some i =>
    match nth_error s i with
    | Some c =>
      if (RuneSelf <=? byteval c)%N
      then firstn (i + snd (DecodeRuneInString (skipn i s))) s
      else firstn (i + 1) s
    | None => firstn (i + 1) s
    end
  | None => []                       (* i = -1, i++ gives s[0:0] *)
  end.

Definition TrimFunc (s : gostring) (f : N -> bool) : gostring :=
  TrimRightFunc (TrimLeftFunc s f) f.

(** Second loop of [TrimSpace]; [s] is [s[start:]] and [stop] counts from
    [start]. *)
Fixpoint TrimSpace_stop (s : gostring) (stop : nat) : gostring :=
  match stop with
  | O => []
  | S k =>
    match nth_error s k with
    | None => []
    | Some c =>
      if (RuneSelf <=? byteval c)%N then TrimRightFunc (firstn stop s) IsSpace
      else if asciiSpace c then TrimSpace_stop s k
      else firstn stop s
    end
  end.

(** [strings.TrimSpace]: the ASCII fast path from the front, falling back to
    the rune-aware [TrimFunc] at the first non-ASCII byte. *)
Fixpoint TrimSpace (s : gostring) : gostring :=
  match s with
  | [] => []
  | c :: t =>
    if (RuneSelf <=? byteval c)%N then TrimFunc s IsSpace
    else if asciiSpace c then TrimSpace t
    else TrimSpace_stop s (length s)
  end.

(* ------------------------------------------------------------------ *)
(** *** [regexp]: splitting on [\n{2,}] *)

Definition is_newline (c : ascii) : bool := (byteval c =? 10)%N.

(** Length of the run of newlines at the head of [s]. *)
Fixpoint newline_run (s : gostring) : nat :=
  match s with
  | c :: t => if is_newline c then S (newline_run t) else 0
  | [] => 0
  end.

(** [re.FindAllStringIndex(s, -1)] for [re = \n{2,}]: the successive
    leftmost, greedy, non-overlapping matches as [(start, end)] offsets.
    [rest] is [s[pos:]]. *)
Fixpoint FindAllStringIndex (fuel : nat) (rest : gostring) (pos : nat)
  : list (nat * nat) :=
  match fuel with
  | O => []
  | S fuel' =>
    match rest with
    | [] => []
    | _ :: t =>
      let n := newline_run rest in
      if 2 <=? n
      then (pos, pos + n) :: FindAllStringIndex fuel' (skipn n rest) (pos + n)
      else FindAllStringIndex fuel' t (pos + 1)
    end
  end.

(** The loop of [Regexp.Split] over the matches, carrying [beg] and [end]. *)
Fixpoint Split_loop (s : gostring) (matches : list (nat * nat))
         (beg end_ : nat) (strings : list gostring)
  : nat * nat * list gostring :=
  match matches with
  | [] => (beg, end_, strings)
  | (m0, m1) :: rest =>
    let strings' := if m1 =? 0 then strings
                    else strings ++ [slice s beg m0] in
    Split_loop s rest m1 m0 strings'
  end.

(** [regexp.MustCompile(`\n{2,}`).Split(s, -1)]. *)
Definition Split (s : gostring) : list gostring :=
  if length s =? 0 then [[]]
  else
    let matches := FindAllStringIndex (length s) s 0 in
    let '(beg, end_, strings) := Split_loop s matches 0 0 [] in
    if end_ =? length s then strings
    else strings ++ [slice s beg (length s)].

(* ================================================================== *)
(** ** Package [processing]: the chunker *)
(* ================================================================== *)

(** How a call ends: it returns, it panics (slice out of range), or the
    model's fuel ran out before the loop finished. *)
Inductive outcome (A : Type) : Type :=
| Returns (a : A)
| Panics
| OutOfFuel.
Arguments Returns {A} a.
Arguments Panics {A}.
Arguments OutOfFuel {A}.

(** The [for] loop of [splitLong]; [i] is the loop variable and [res] the
    slice built so far. *)
Fixpoint splitLong_loop (fuel : nat) (s : gostring) (max overlap i : Z)
         (res : list gostring) : outcome (list gostring) :=
  match fuel with
  | O => OutOfFuel
  | S fuel' =>
    if (i <? len s)%Z then
      let end0 := int_add i max in
      let end_ := if (end0 >? len s)%Z then len s else end0 in
      match slice_checked s i end_ with
      | None => Panics
      | Some w =>
        let res' := res ++ [TrimSpace w] in
        if (end_ =? len s)%Z then Returns res'
        else splitLong_loop fuel' s max overlap
                            (int_add i (int_sub max overlap)) res'
      end
    else Returns res
  end.

Definition splitLong (s : gostring) (max overlap : Z)
  : outcome (list gostring) :=
  if (len s <=? max)%Z then Returns [s]
  else splitLong_loop (S (length s)) s max overlap 0 [].

(** The [range paras] loop of [ChunkText]. *)
Fixpoint ChunkText_loop (paras : list gostring) (out : list gostring)
  : outcome (list gostring) :=
  match paras with
  | [] => Returns out
  | p :: rest =>
    let p := TrimSpace p in
    if is_empty p then ChunkText_loop rest out
    else match splitLong p 1000 200 with
         | Returns ws => ChunkText_loop rest (out ++ ws)
         | Panics => Panics
         | OutOfFuel => OutOfFuel
         end
  end.

Definition ChunkText (text : gostring) : outcome (list gostring) :=
  ChunkText_loop (Split text) [].

(* ================================================================== *)
(** ** Errors, the outside world and its effects *)
(* ================================================================== *)

(** A non-nil Go [error] is represented by its message ([err.Error()]);
    [fmt.Errorf("...: %w", err)] prefixes the wrapped message. *)
Definition error := gostring.

Inductive result (A : Type) : Type :=
| Ok (a : A)
| Err (e : error).
Arguments Ok {A} a.
Arguments Err {A} e.

Definition nl : gostring := ["010"%char].

(** A [float32], kept as its IEEE-754 bit pattern; the modelled code only
    stores and forwards these values. *)
Definition float32 := Z.

Record ollamaRequest := {
  Model : gostring;
  Prompt : gostring
}.

Record HttpResponse := {
  StatusCode : Z;
  Body : gostring
}.

(** One call of [json.Decoder.Decode] on the streamed generation response:
    a decoded [ollamaResponse] or a decode error; the end of the list is
    [io.EOF]. *)
Inductive decode_step :=
| Fragment (Response : gostring) (Done : bool)
| DecodeFailure (e : error).

Inductive event :=
| EvReadFile (path : gostring)
| EvPdfTextLayer (path : gostring)
| EvPdftotext (path : gostring)
| EvPdftoppm (path tmpPrefix : gostring)
| EvGlob (pattern : gostring)
| EvTesseract (img : gostring)
| EvHttpPost (url : gostring) (req : ollamaRequest)
| EvSearch (k : Z)
| EvInsert (filename source content : gostring) (emb : list float32)
| EvLog (msg : gostring)
| EvPrint (msg : gostring).

(** The world the program acts on: the external calls made so far, in
    order, and the files present under the temporary directory. *)
Record World := {
  trace : list event;
  files : list gostring
}.

(** The external collaborators.  Each answer may depend on the world at
    the time of the call (so a backend may answer differently each time). *)
Record Env := {
  (** [os.ReadFile] *)
  os_ReadFile : World -> gostring -> result gostring;
  (** [pdf.Open], [GetPlainText] and [io.Copy] of package [pdf]: the text
      layer read into the buffer, or the error of whichever step failed *)
  pdf_text_layer : World -> gostring -> result gostring;
  (** [exec.Command("pdftotext", "-layout", path, "-").Output()] *)
  pdftotext : World -> gostring -> result gostring;
  (** [filepath.Join(os.TempDir(), "uda_pdfimg")] *)
  tmpPrefix : gostring;
  (** [exec.Command("pdftoppm", "-png", path, tmpPrefix).Run()]: the image
      files it wrote and its error, if any *)
  pdftoppm : World -> gostring -> gostring -> list gostring * option error;
  (** [filepath.Glob] *)
  Glob : World -> gostring -> result (list gostring);
  (** [client.SetImage] and [client.Text] of gosseract *)
  tesseract_SetImage : World -> gostring -> option error;
  tesseract_Text : World -> gostring -> result gostring;
  (** [http.Post] / [http.DefaultClient.Do] *)
  http_do : World -> gostring -> ollamaRequest -> result HttpResponse;
  (** [json.NewDecoder(body).Decode(&oResp)] of the embeddings response *)
  json_decode_embedding : gostring -> result (list float32);
  (** the successive [Decode] results over a streamed generation body *)
  json_decode_stream : gostring -> list decode_step;
  (** the [%q] verb of [fmt] *)
  strconv_Quote : gostring -> gostring;
  (** [storage.InsertEmbedding] *)
  storage_InsertEmbedding :
    World -> gostring -> gostring -> gostring -> list float32 -> option error
}.

(** Computations that read and extend the world. *)
Definition M (A : Type) : Type := World -> A * World.

Definition ret {A : Type} (a : A) : M A := fun w => (a, w).

Definition bind {A B : Type} (m : M A) (k : A -> M B) : M B :=
  fun w => let '(a, w') := m w in k a w'.

Notation "x <- m ;; k" := (bind m (fun x => k))
  (at level 61, m at next level, right associativity).

(** An external call: its answer is read off the current world and the call
    is appended to the trace. *)
Definition call {A : Type} (e : event) (answer : World -> A) : M A :=
  fun w => (answer w, {| trace := trace w ++ [e]; files := files w |}).

Definition write_files (fs : list gostring) : M unit :=
  fun w => (tt, {| trace := trace w; files := files w ++ fs |}).

(** [log.Println] joins its operands with single spaces. *)
Fixpoint join_space (parts : list gostring) : gostring :=
  match parts with
  | [] => []
  | [p] => p
  | p :: rest => p ++ str " " ++ join_space rest
  end.

Definition log_Println (parts : list gostring) : M unit :=
  call (EvLog (join_space parts)) (fun _ => tt).

(* ================================================================== *)
(** ** Package [ingestion] *)
(* ================================================================== *)

Definition is_upper (c : ascii) : bool :=
  ((65 <=? byteval c) && (byteval c <=? 90))%N.

(** [strings.ToLower] on the bytes of an ASCII string.  Bytes of non-ASCII
    runes are left as they are: no non-ASCII rune lower-cases to a letter of
    the extensions compared against below. *)
Definition ToLower (s : gostring) : gostring :=
  map (fun c => if is_upper c then ascii_of_N (byteval c + 32) else c) s.

(** The loop of [filepath.Ext], walking [rev path] from its head: the
    suffix from the last dot of the last path element, or the empty string
    (with the Unix path separator). *)
Fixpoint Ext_scan (rpath : list ascii) (suffix : gostring) : gostring :=
  match rpath with
  | [] => []
  | c :: rest =>
    if Ascii.eqb c "/"%char then []
    else if Ascii.eqb c "."%char then c :: suffix
    else Ext_scan rest (c :: suffix)
  end.

Definition Ext (path : gostring) : gostring := Ext_scan (rev path) [].

Definition runTesseract (env : Env) (imgPath : gostring)
  : M (result gostring) :=
  r <- call (EvTesseract imgPath)
            (fun w => match tesseract_SetImage env w imgPath with
                      | Some e => Err e
                      | None => tesseract_Text env w imgPath
                      end) ;;
  match r with
  | Err e => ret (Err e)
  | Ok text => ret (Ok (TrimSpace text))
  end.

(** The [range matches] loop of [ExtractTextWithOCR] over the builder
    [combined]. *)
Fixpoint OCR_pages (env : Env) (matches : list gostring) (combined : gostring)
  : M gostring :=
  match matches with
  | [] => ret combined
  | m :: rest =>
    r <- runTesseract env m ;;
    match r with
    | Err _ => OCR_pages env rest combined
    | Ok t => OCR_pages env rest (combined ++ t ++ nl)
    end
  end.

Definition ExtractTextWithOCR (env : Env) (path : gostring)
  : M (result gostring) :=
  let ext := ToLower (Ext path) in
  if gostring_eqb ext (str ".pdf") then
    conv <- call (EvPdftoppm path (tmpPrefix env))
                 (fun w => pdftoppm env w path (tmpPrefix env)) ;;
    _ <- write_files (fst conv) ;;
    match snd conv with
    | Some e => ret (Err (str "pdftoppm convert failed: " ++ e))
    | None =>
      let pattern := tmpPrefix env ++ str "-*.png" in
      g <- call (EvGlob pattern) (fun w => Glob env w pattern) ;;
      match g with
      | Err e => ret (Err e)
      | Ok matches =>
        combined <- OCR_pages env matches [] ;;
        ret (Ok (TrimSpace combined))
      end
    end
  else runTesseract env path.

Definition ExtractTextFromPDF (env : Env) (path : gostring)
  : M (result gostring) :=
  r <- call (EvPdfTextLayer path) (fun w => pdf_text_layer env w path) ;;
  match r with
  | Err e => ret (Err e)
  | Ok buf =>
    let text := TrimSpace buf in
    if is_empty text then
      o <- call (EvPdftotext path) (fun w => pdftotext env w path) ;;
      match o with
      | Ok out => ret (Ok out)
      | Err _ => ret (Ok text)
      end
    else ret (Ok text)
  end.

Definition ext_in (ext : gostring) (l : list string) : bool :=
  existsb (fun e => gostring_eqb ext (str e)) l.

Definition ExtractText (env : Env) (path : gostring) : M (result gostring) :=
  let ext := ToLower (Ext path) in
  if ext_in ext [".txt"; ".md"]%string then
    call (EvReadFile path) (fun w => os_ReadFile env w path)
  else if ext_in ext [".pdf"]%string then
    r <- ExtractTextFromPDF env path ;;
    match r with
    | Ok text =>
      if negb (is_empty (TrimSpace text)) then ret (Ok text)
      else ExtractTextWithOCR env path
    | Err _ => ExtractTextWithOCR env path
    end
  else if ext_in ext [".png"; ".jpg"; ".jpeg"]%string then
    ExtractTextWithOCR env path
  else ret (Err (str "unsupported file type")).

(* ================================================================== *)
(** ** Package [processing]: the embedder *)
(* ================================================================== *)

Definition EmbeddingDim : nat := 768.

Definition ollamaURL : gostring := str "http://localhost:11434/api/embeddings".

Definition getOllamaEmbedding (env : Env) (text : gostring)
  : M (result (list float32)) :=
  let reqBody := {| Model := str "nomic-embed-text"; Prompt := text |} in
  r <- call (EvHttpPost ollamaURL reqBody)
            (fun w => http_do env w ollamaURL reqBody) ;;
  match r with
  | Err e => ret (Err (str "request failed: " ++ e))
  | Ok resp =>
    if negb (StatusCode resp =? 200)%Z
    then ret (Err (str "ollama error: " ++ Body resp))
    else match json_decode_embedding env (Body resp) with
         | Err e => ret (Err (str "failed decode response: " ++ e))
         | Ok emb =>
           if negb (length emb =? EmbeddingDim)
           then ret (Err (str "expected embedding dim " ++ itoa EmbeddingDim
                          ++ str ", got " ++ itoa (length emb)))
           else ret (Ok emb)
         end
  end.

(** [out[i] = v] on a slice long enough to hold index [i]. *)
Fixpoint set_index {A : Type} (out : list A) (i : nat) (v : A) : list A :=
  match out, i with
  | [], _ => []
  | _ :: t, O => v :: t
  | x :: t, S j => x :: set_index t j v
  end.

(** The [range chunks] loop of [EmbedChunks]; [i] is the index of the head
    of [chunks] and [out] the slice allocated up front. *)
Fixpoint EmbedChunks_loop (env : Env) (chunks : list gostring) (i : nat)
         (out : list (list float32)) : M (result (list (list float32))) :=
  match chunks with
  | [] => ret (Ok out)
  | chunk :: rest =>
    r <- getOllamaEmbedding env chunk ;;
    match r with
    | Err e =>
      ret (Err (str "failed embedding chunk " ++ itoa i ++ str ": " ++ e))
    | Ok emb => EmbedChunks_loop env rest (S i) (set_index out i emb)
    end
  end.

Definition EmbedChunks (env : Env) (chunks : list gostring)
  : M (result (list (list float32))) :=
  if length chunks =? 0 then ret (Err (str "no chunks"))
  else EmbedChunks_loop env chunks 0 (repeat [] (length chunks)).

Definition QueryEmbedding (env : Env) (query : gostring)
  : M (result (list float32)) :=
  if is_empty query then ret (Err (str "empty query"))
  else getOllamaEmbedding env query.

(* ================================================================== *)
(** ** Package [graph]: the answer workflow *)
(* ================================================================== *)

Record DBWrapper := {
  Search : World -> list float32 -> Z -> result (list gostring)
}.

Record State := {
  Query : gostring;
  Docs : list gostring;
  Ans : gostring;
  DB : DBWrapper
}.

Definition set_Docs (s : State) (docs : list gostring) : State :=
  {| Query := Query s; Docs := docs; Ans := Ans s; DB := DB s |}.

Definition set_Ans (s : State) (ans : gostring) : State :=
  {| Query := Query s; Docs := Docs s; Ans := ans; DB := DB s |}.

(** A node returns its error ([None] for [nil]) and the state it leaves
    behind the pointer [s]. *)
Definition node := State -> M (option error * State).

Definition RetrieverNode (env : Env) : node := fun s =>
  q <- QueryEmbedding env (Query s) ;;
  match q with
  | Err e => ret (Some e, s)
  | Ok qemb =>
    d <- call (EvSearch 5) (fun w => Search (DB s) w qemb 5%Z) ;;
    match d with
    | Err e => ret (Some e, s)
    | Ok docs => ret (None, set_Docs s docs)
    end
  end.

Definition no_documents_message : gostring :=
  str "No documents found matching the query.".

Definition generateURL : gostring := str "http://localhost:11434/api/generate".

(** The prompt-building loop: ["Document %d:\n%s\n\n"] for each document,
    numbered from 1. *)
Fixpoint docText_loop (docs : list gostring) (i : nat) (docText : gostring)
  : gostring :=
  match docs with
  | [] => docText
  | d :: rest =>
    docText_loop rest (S i)
      (docText ++ str "Document " ++ itoa (i + 1) ++ str ":" ++ nl
               ++ d ++ nl ++ nl)
  end.

Definition build_prompt (env : Env) (s : State) : gostring :=
  str "The user asked: " ++ strconv_Quote env (Query s) ++ str "." ++ nl ++ nl
  ++ str "Summarize the following documents in the context of this query:"
  ++ nl ++ nl ++ docText_loop (Docs s) 0 [].

(** The streaming read loop: [stream] is what the decoder has not yet
    delivered, [summary] the builder.  Returns the builder (or the decode
    error) together with the part of the stream left unread. *)
Fixpoint read_stream (stream : list decode_step) (summary : gostring)
  : result gostring * list decode_step :=
  match stream with
  | [] => (Ok summary, [])                         (* io.EOF: break *)
  | DecodeFailure e :: rest => (Err e, rest)
  | Fragment response done :: rest =>
    let summary' := summary ++ response in
    if done then (Ok summary', rest)
    else read_stream rest summary'
  end.

(** [http.NewRequestWithContext] cannot fail on the constant method and
    URL used here, so its error branch is left out. *)
Definition SummarizerNode (env : Env) : node := fun s =>
  if length (Docs s) =? 0 then ret (None, set_Ans s no_documents_message)
  else
    let req := {| Model := str "llama3"; Prompt := build_prompt env s |} in
    r <- call (EvHttpPost generateURL req)
              (fun w => http_do env w generateURL req) ;;
    match r with
    | Err e => ret (Some (str "calling ollama: " ++ e), s)
    | Ok resp =>
      match fst (read_stream (json_decode_stream env (Body resp)) []) with
      | Err e => ret (Some (str "decoding ollama response: " ++ e), s)
      | Ok summary => ret (None, set_Ans s summary)
      end
    end.

Definition advisory_suffix : gostring :=
  nl ++ nl ++ str "(Note: result short; consider rephrasing your query or indexing more documents.)".

Definition CriticNode : node := fun s =>
  if (len (Ans s) <? 50)%Z
  then ret (None, set_Ans s (Ans s ++ advisory_suffix))
  else ret (None, s).

Definition AnswerNode : node := fun s =>
  _ <- call (EvPrint (nl ++ str "===== ANSWER =====" ++ nl)) (fun _ => tt) ;;
  _ <- call (EvPrint (Ans s)) (fun _ => tt) ;;
  ret (None, s).

Fixpoint run_nodes (nodes : list node) (s : State) : M (option error * State) :=
  match nodes with
  | [] => ret (None, s)
  | n :: rest =>
    r <- n s ;;
    match fst r with
    | Some e => ret (Some e, snd r)
    | None => run_nodes rest (snd r)
    end
  end.

Definition RunWorkflow (env : Env) (s : State) : M (option error * State) :=
  run_nodes [RetrieverNode env; SummarizerNode env; CriticNode; AnswerNode] s.

(* ================================================================== *)
(** ** [cmd/agent]: the ingestion loop *)
(* ================================================================== *)

(** The inner loop [for i := range chunks] inserting [chunks[i]] with
    [embs[i]]; indexing [embs] past its end is a run-time panic. *)
Fixpoint insert_loop (env : Env) (f : gostring) (chunks : list gostring)
         (embs : list (list float32)) : M (outcome unit) :=
  match chunks with
  | [] => ret (Returns tt)
  | c :: cs =>
    match embs with
    | [] => ret Panics
    | e :: es =>
      r <- call (EvInsert f (str "local") c e)
                (fun w => storage_InsertEmbedding env w f (str "local") c e) ;;
      _ <- match r with
           | Some err => log_Println [str "db insert error:"; err]
           | None => ret tt
           end ;;
      insert_loop env f cs es
    end
  end.

(** One iteration of [for _, f := range files]. *)
Definition index_file (env : Env) (f : gostring) : M (outcome unit) :=
  _ <- log_Println [str "Indexing:"; f] ;;
  t <- ExtractText env f ;;
  match t with
  | Err err =>
    _ <- log_Println [str "skip file:"; f; str "err:"; err] ;;
    ret (Returns tt)
  | Ok text =>
    match ChunkText text with
    | Returns chunks =>
      e <- EmbedChunks env chunks ;;
      match e with
      | Err err =>
        _ <- log_Println [str "embed error:"; err] ;;
        ret (Returns tt)
      | Ok embs => insert_loop env f chunks embs
      end
    | Panics => ret Panics
    | OutOfFuel => ret OutOfFuel
    end
  end.

Fixpoint index_files (env : Env) (fs : list gostring) : M (outcome unit) :=
  match fs with
  | [] => ret (Returns tt)
  | f :: rest =>
    r <- index_file env f ;;
    match r with
    | Returns _ => index_files env rest
    | other => ret other
    end
  end.

(* ================================================================== *)
(** ** The windows of [splitLong] as index ranges *)
(* ================================================================== *)

(** Window [k] of a long paragraph, as the design document describes it:
    it starts [k] steps of [max - overlap] into the string and runs for
    [max] bytes or to the end of the string. *)
Definition window_start (max overlap : Z) (k : nat) : Z :=
  (Z.of_nat k * (max - overlap))%Z.

Definition window_end (s : gostring) (max overlap : Z) (k : nat) : Z :=
  Z.min (window_start max overlap k + max) (len s).

Definition window_text (s : gostring) (max overlap : Z) (k : nat) : gostring :=
  slice s (Z.to_nat (window_start max overlap k))
          (Z.to_nat (window_end s max overlap k)).

(** [ceil(a / b)] for positive [b]. *)
Definition ceil_div (a b : Z) : Z := ((a + b - 1) / b)%Z.

(* ================================================================== *)
(** ** Runs of the backends, for stating the batch properties *)
(* ================================================================== *)

(** [embeds env chunks w vs w']: embedding the items of [chunks] one after
    the other from world [w] succeeds on every item, yields the vectors [vs]
    in the same order and leaves the world [w']. *)
Inductive embeds (env : Env)
  : list gostring -> World -> list (list float32) -> World -> Prop :=
| embeds_nil (w : World) : embeds env [] w [] w
| embeds_cons (c : gostring) (cs : list gostring) (w w1 w2 : World)
              (v : list float32) (vs : list (list float32)) :
    getOllamaEmbedding env c w = (Ok v, w1) ->
    embeds env cs w1 vs w2 ->
    embeds env (c :: cs) w (v :: vs) w2.

(** [recognised env pages w rs w']: running recognition on the page images
    [pages] one after the other from world [w] gives the per-page results
    [rs], failures included, and leaves the world [w']. *)
Inductive recognised (env : Env)
  : list gostring -> World -> list (result gostring) -> World -> Prop :=
| recognised_nil (w : World) : recognised env [] w [] w
| recognised_cons (m : gostring) (ms : list gostring) (w w1 w2 : World)
                  (r : result gostring) (rs : list (result gostring)) :
    runTesseract env m w = (r, w1) ->
    recognised env ms w1 rs w2 ->
    recognised env (m :: ms) w (r :: rs) w2.

(** What a page contributes to the combined text: its text and a newline,
    or nothing when its recognition failed. *)
Definition page_text (r : result gostring) : gostring :=
  match r with
  | Ok t => t ++ nl
  | Err _ => []
  end.

Definition is_pdftoppm (e : event) : bool :=
  match e with EvPdftoppm _ _ => true | _ => false end.

Definition is_http (e : event) : bool :=
  match e with EvHttpPost _ _ => true | _ => false end.

(** Number of page conversions (one per run of the optical fallback on a
    PDF) recorded in a trace. *)
Definition pdftoppm_runs (tr : list event) : nat :=
  length (filter is_pdftoppm tr).

(** The world in which the page images are listed: the conversion has run
    and its files are on disk. *)
Definition after_pdftoppm (env : Env) (path : gostring) (w : World)
           (written : list gostring) : World :=
  {| trace := trace w ++ [EvPdftoppm path (tmpPrefix env)];
     files := files w ++ written |}.

(** The world in which recognition starts: the page images were listed. *)
Definition after_glob (env : Env) (path : gostring) (w : World)
           (written : list gostring) : World :=
  {| trace := (trace w ++ [EvPdftoppm path (tmpPrefix env)])
              ++ [EvGlob (tmpPrefix env ++ str "-*.png")];
     files := files w ++ written |}.

Definition not_done (response : gostring) : decode_step :=
  Fragment response false.

(* ================================================================== *)
(** ** Concrete worlds used as test inputs *)
(* ================================================================== *)

Definition world0 : World := {| trace := []; files := [] |}.

Fixpoint has_prefix (pre s : gostring) : bool :=
  match pre, s with
  | [], _ => true
  | x :: pre', y :: s' => Ascii.eqb x y && has_prefix pre' s'
  | _ :: _, [] => false
  end.

Definition quote_char : ascii := "034"%char.

(** A machine on which every PDF is a two-page scan without a text layer,
    [pdftotext] is not installed, page recognition is given by [ocr], the
    embedding backend answers 768 zeros (3 for a prompt that starts with
    "short") and the generation backend streams three fragments, the second
    one flagged done. *)
Definition scan_env (ocr : gostring -> result gostring) : Env := {|
  os_ReadFile := fun _ _ => Ok (str "   ");
  pdf_text_layer := fun _ _ => Ok (str "  ");
  pdftotext := fun _ _ => Err (str "executable file not found");
  tmpPrefix := str "/tmp/uda_pdfimg";
  pdftoppm := fun _ _ prefix =>
                ([prefix ++ str "-1.png"; prefix ++ str "-2.png"], None);
  Glob := fun w _ => Ok (filter (has_prefix (str "/tmp/uda_pdfimg-")) (files w));
  tesseract_SetImage := fun _ _ => None;
  tesseract_Text := fun _ img => ocr img;
  http_do := fun _ _ req => Ok {| StatusCode := 200; Body := Prompt req |};
  json_decode_embedding :=
    fun body => Ok (repeat 0%Z (if has_prefix (str "short") body
                                then 3 else 768));
  json_decode_stream :=
    fun _ => [Fragment (str "Hello") false; Fragment (str ", world") true;
              Fragment (str " (never read)") false];
  strconv_Quote := fun q => quote_char :: q ++ [quote_char];
  storage_InsertEmbedding := fun _ _ _ _ _ => None
|}.

(** Recognition finds no text on any page. *)
Definition blank_scan_env : Env := scan_env (fun _ => Ok []).

(** Recognition fails on page 1 and reads "page two" on page 2. *)
Definition partial_scan_env : Env :=
  scan_env (fun img => if gostring_eqb img (str "/tmp/uda_pdfimg-1.png")
                       then Err (str "recognition failed")
                       else Ok (str " page two ")).

Definition scan_pdf : gostring := str "docs/scan.PDF".
Definition notes_txt : gostring := str "docs/notes.txt".

Definition no_search : DBWrapper :=
  {| Search := fun _ _ _ => Ok [] |}.

Definition state_with (docs : list gostring) (ans : gostring) : State :=
  {| Query := str "what is this?"; Docs := docs; Ans := ans; DB := no_search |}.

(* ================================================================== *)
(** ** Package [ingestion]: the folder walk of [local.go] *)
(* ================================================================== *)

Definition allowedExt : list gostring :=
  map str [".pdf"; ".txt"; ".md"; ".png"; ".jpg"; ".jpeg"]%string.

(** One call of the callback that [filepath.WalkDir] makes: the path, whether
    the entry is a directory, and the error the walk met there. *)
Record walk_entry := {
  we_path : gostring;
  we_isDir : bool;
  we_err : option error
}.

(** The loop [for _, a := range allowedExt] with its [break]. *)
Fixpoint ext_allowed (ext : gostring) (allowed : list gostring) : bool :=
  match allowed with
  | [] => false
  | a :: rest => if gostring_eqb ext a then true else ext_allowed ext rest
  end.

(** [LoadLocalFiles] over the calls [WalkDir] makes, in order: a non-nil
    error returned by the callback stops the walk and is returned next to
    the paths collected so far. *)
Fixpoint LoadLocalFiles_walk (entries : list walk_entry) (out : list gostring)
  : list gostring * option error :=
  match entries with
  | [] => (out, None)
  | e :: rest =>
    match we_err e with
    | Some err => (out, Some err)
    | None =>
      if we_isDir e then LoadLocalFiles_walk rest out
      else if ext_allowed (ToLower (Ext (we_path e))) allowedExt
           then LoadLocalFiles_walk rest (out ++ [we_path e])
           else LoadLocalFiles_walk rest out
    end
  end.

Definition LoadLocalFiles (entries : list walk_entry)
  : list gostring * option error :=
  LoadLocalFiles_walk entries [].

(** The extensions on which [ExtractText] does not take its [default]
    branch. *)
Definition supported_ext (ext : gostring) : bool :=
  ext_in ext [".txt"; ".md"]%string
  || ext_in ext [".pdf"]%string
  || ext_in ext [".png"; ".jpg"; ".jpeg"]%string.

(* ================================================================== *)
(** ** Package [storage] *)
(* ================================================================== *)

Record Document := {
  ID : Z;
  Filename : gostring;
  Source : gostring;
  Content : gostring
}.

(** What [DB.Query] answers: an error, or the rows, each of which [Scan]
    turns into a document or an error; the end of the list is [rows.Next()]
    returning false. *)
Definition db_query : Type :=
  World -> list float32 -> Z -> result (list (result Document)).

(** The [for rows.Next()] loop of [QuerySimilar]. *)
Fixpoint QuerySimilar_rows (rows : list (result Document))
         (results : list Document) : result (list Document) :=
  match rows with
  | [] => Ok results
  | Err e :: _ => Err e
  | Ok doc :: rest => QuerySimilar_rows rest (results ++ [doc])
  end.

Definition QuerySimilar (q : db_query) (w : World) (queryEmb : list float32)
           (topK : Z) : result (list Document) :=
  match q w queryEmb topK with
  | Err e => Err (str "query failed: " ++ e)
  | Ok rows => QuerySimilar_rows rows []
  end.

(** The [range docs] loop of [SearchImpl], writing [results[i]]. *)
Fixpoint SearchImpl_loop (docs : list Document) (i : nat)
         (results : list gostring) : list gostring :=
  match docs with
  | [] => results
  | d :: rest =>
    SearchImpl_loop rest (S i)
      (set_index results i (str "File: " ++ Filename d ++ nl ++ Content d))
  end.

Definition SearchImpl (q : db_query) (w : World) (queryEmb : list float32)
           (topK : Z) : result (list gostring) :=
  match QuerySimilar q w queryEmb topK with
  | Err e => Err e
  | Ok docs => Ok (SearchImpl_loop docs 0 (repeat [] (length docs)))
  end.

(* ================================================================== *)
(** ** [cmd/agent]: the query command and [convertDocs] *)
(* ================================================================== *)

(** The [range docs] loop of [convertDocs], writing [out[i]]. *)
Fixpoint convertDocs_loop (docs : list Document) (i : nat)
         (out : list gostring) : list gostring :=
  match docs with
  | [] => out
  | d :: rest =>
    convertDocs_loop rest (S i)
      (set_index out i (str "File: " ++ Filename d ++ nl ++ Content d))
  end.

Definition convertDocs (docs : list Document) : list gostring :=
  convertDocs_loop docs 0 (repeat [] (length docs)).

Definition usage_message : gostring :=
  str "Please provide -q " ++ [quote_char] ++ str "your query" ++ [quote_char].

(** The [case "query"] branch of [main], after flag parsing gave
    [queryText]: the process exit status, 0 for falling off the end of
    [main], 1 for [os.Exit(1)] and for [log.Fatal]. *)
Definition query_command (env : Env) (q : db_query) (queryText : gostring)
  : M Z :=
  if is_empty queryText then
    _ <- call (EvPrint usage_message) (fun _ => tt) ;;
    ret 1%Z
  else
    let state := {| Query := queryText; Docs := []; Ans := [];
                    DB := {| Search := SearchImpl q |} |} in
    r <- RunWorkflow env state ;;
    match fst r with
    | Some err =>
      _ <- call (EvLog err) (fun _ => tt) ;;
      ret 1%Z
    | None =>
      _ <- call (EvPrint (join_space [str "Answer:"; Ans (snd r)]))
                (fun _ => tt) ;;
      ret 0%Z
    end.

(* ================================================================== *)
(** ** Notions used to state properties of the code above *)
(* ================================================================== *)

(** Two adjacent newline bytes occur somewhere in [s]. *)
Fixpoint has_double_newline (s : gostring) : bool :=
  match s with
  | [] => false
  | c :: t =>
    match t with
    | [] => false
    | c' :: _ => (is_newline c && is_newline c') || has_double_newline t
    end
  end.

Definition is_insert (e : event) : bool :=
  match e with EvInsert _ _ _ _ => true | _ => false end.

Definition is_tesseract (e : event) : bool :=
  match e with EvTesseract _ => true | _ => false end.

Definition is_print (e : event) : bool :=
  match e with EvPrint _ => true | _ => false end.


(** The request [getOllamaEmbedding] sends for a text. *)
Definition embedding_request (text : gostring) : event :=
  EvHttpPost ollamaURL {| Model := str "nomic-embed-text"; Prompt := text |}.

(** The request [SummarizerNode] sends for a state. *)
Definition generation_request (env : Env) (s : State) : event :=
  EvHttpPost generateURL
             {| Model := str "llama3"; Prompt := build_prompt env s |}.

(** [w'] is [w] after some more external calls and file writes. *)
Definition extends (w w' : World) : Prop :=
  (exists added : list event, trace w' = trace w ++ added)
  /\ (exists more : list gostring, files w' = files w ++ more).

(** The effect of [CriticNode] on an answer. *)
Definition critiqued (ans : gostring) : gostring :=
  if (len ans <? 50)%Z then ans ++ advisory_suffix else ans.

(** The operand of the first [fmt.Println] of [AnswerNode]. *)
Definition answer_header : gostring := nl ++ str "===== ANSWER =====" ++ nl.

(** The machine of [blank_scan_env] with a generation stream that breaks
    after its first fragment. *)
Definition broken_stream_env : Env := {|
  os_ReadFile := os_ReadFile blank_scan_env;
  pdf_text_layer := pdf_text_layer blank_scan_env;
  pdftotext := pdftotext blank_scan_env;
  tmpPrefix := tmpPrefix blank_scan_env;
  pdftoppm := pdftoppm blank_scan_env;
  Glob := Glob blank_scan_env;
  tesseract_SetImage := tesseract_SetImage blank_scan_env;
  tesseract_Text := tesseract_Text blank_scan_env;
  http_do := http_do blank_scan_env;
  json_decode_embedding := json_decode_embedding blank_scan_env;
  json_decode_stream :=
    fun _ => [Fragment (str "Hel") false;
              DecodeFailure (str "unexpected end of JSON input")];
  strconv_Quote := strconv_Quote blank_scan_env;
  storage_InsertEmbedding := storage_InsertEmbedding blank_scan_env
|}.

(** The machine of [blank_scan_env] with PDFs that carry a text layer. *)
Definition text_layer_env : Env := {|
  os_ReadFile := os_ReadFile blank_scan_env;
  pdf_text_layer := fun _ _ => Ok (str "  Chapter 1  ");
  pdftotext := pdftotext blank_scan_env;
  tmpPrefix := tmpPrefix blank_scan_env;
  pdftoppm := pdftoppm blank_scan_env;
  Glob := Glob blank_scan_env;
  tesseract_SetImage := tesseract_SetImage blank_scan_env;
  tesseract_Text := tesseract_Text blank_scan_env;
  http_do := http_do blank_scan_env;
  json_decode_embedding := json_decode_embedding blank_scan_env;
  json_decode_stream := json_decode_stream blank_scan_env;
  strconv_Quote := strconv_Quote blank_scan_env;
  storage_InsertEmbedding := storage_InsertEmbedding blank_scan_env
|}.

(** The machine of [blank_scan_env] without [pdftoppm] installed. *)
Definition no_pdftoppm_env : Env := {|
  os_ReadFile := os_ReadFile blank_scan_env;
  pdf_text_layer := pdf_text_layer blank_scan_env;
  pdftotext := pdftotext blank_scan_env;
  tmpPrefix := tmpPrefix blank_scan_env;
  pdftoppm := fun _ _ _ => ([], Some (str "executable file not found"));
  Glob := Glob blank_scan_env;
  tesseract_SetImage := tesseract_SetImage blank_scan_env;
  tesseract_Text := tesseract_Text blank_scan_env;
  http_do := http_do blank_scan_env;
  json_decode_embedding := json_decode_embedding blank_scan_env;
  json_decode_stream := json_decode_stream blank_scan_env;
  strconv_Quote := strconv_Quote blank_scan_env;
  storage_InsertEmbedding := storage_InsertEmbedding blank_scan_env
|}.

(** The machine of [blank_scan_env] on which the listing of page images
    finds none. *)
Definition no_pages_env : Env := {|
  os_ReadFile := os_ReadFile blank_scan_env;
  pdf_text_layer := pdf_text_layer blank_scan_env;
  pdftotext := pdftotext blank_scan_env;
  tmpPrefix := tmpPrefix blank_scan_env;
  pdftoppm := pdftoppm blank_scan_env;
  Glob := fun _ _ => Ok [];
  tesseract_SetImage := tesseract_SetImage blank_scan_env;
  tesseract_Text := tesseract_Text blank_scan_env;
  http_do := http_do blank_scan_env;
  json_decode_embedding := json_decode_embedding blank_scan_env;
  json_decode_stream := json_decode_stream blank_scan_env;
  strconv_Quote := strconv_Quote blank_scan_env;
  storage_InsertEmbedding := storage_InsertEmbedding blank_scan_env
|}.

(** The machine of [text_layer_env] whose store refuses every insert. *)
Definition failing_store_env : Env := {|
  os_ReadFile := fun _ _ => Ok (str "alpha" ++ nl ++ nl ++ str "beta");
  pdf_text_layer := pdf_text_layer text_layer_env;
  pdftotext := pdftotext text_layer_env;
  tmpPrefix := tmpPrefix text_layer_env;
  pdftoppm := pdftoppm text_layer_env;
  Glob := Glob text_layer_env;
  tesseract_SetImage := tesseract_SetImage text_layer_env;
  tesseract_Text := tesseract_Text text_layer_env;
  http_do := http_do text_layer_env;
  json_decode_embedding := json_decode_embedding text_layer_env;
  json_decode_stream := json_decode_stream text_layer_env;
  strconv_Quote := strconv_Quote text_layer_env;
  storage_InsertEmbedding := fun _ _ _ _ _ => Some (str "disk full")
|}.

(** The machine of [blank_scan_env] whose text files hold three
    paragraphs, the second of which the embedding backend answers with a
    vector of the wrong dimension. *)
Definition bad_chunk_env : Env := {|
  os_ReadFile := fun _ _ => Ok (str "alpha" ++ nl ++ nl ++ str "short beta"
                                ++ nl ++ nl ++ str "gamma");
  pdf_text_layer := pdf_text_layer blank_scan_env;
  pdftotext := pdftotext blank_scan_env;
  tmpPrefix := tmpPrefix blank_scan_env;
  pdftoppm := pdftoppm blank_scan_env;
  Glob := Glob blank_scan_env;
  tesseract_SetImage := tesseract_SetImage blank_scan_env;
  tesseract_Text := tesseract_Text blank_scan_env;
  http_do := http_do blank_scan_env;
  json_decode_embedding := json_decode_embedding blank_scan_env;
  json_decode_stream := json_decode_stream blank_scan_env;
  strconv_Quote := strconv_Quote blank_scan_env;
  storage_InsertEmbedding := storage_InsertEmbedding blank_scan_env
|}.

(** A store whose query answers two rows. *)
Definition two_rows : db_query :=
  fun _ _ _ =>
    Ok [Ok {| ID := 1; Filename := str "a.txt"; Source := str "local";
              Content := str "alpha" |};
        Ok {| ID := 2; Filename := str "b.md"; Source := str "local";
              Content := str "beta" |}].

(** A store with no document. *)
Definition no_rows : db_query := fun _ _ _ => Ok [].

Definition sample_walk : list walk_entry :=
  [ {| we_path := str "data"; we_isDir := true; we_err := None |};
    {| we_path := str "data/a.TXT"; we_isDir := false; we_err := None |};
    {| we_path := str "data/b.docx"; we_isDir := false; we_err := None |};
    {| we_path := str "data/scan.pdf"; we_isDir := false; we_err := None |};
    {| we_path := str "data/locked"; we_isDir := true;
       we_err := Some (str "permission denied") |};
    {| we_path := str "data/z.png"; we_isDir := false; we_err := None |} ].

(* ------------------------------------------------------------------ *)
(** ** Quick checks of the string model *)

Definition spaces (n : nat) : gostring := repeat " "%char n.
Definition newlines (n : nat) : gostring := repeat "010"%char n.

(** A 2000-byte paragraph: one letter, 1998 spaces, one letter. *)
Definition sparse_paragraph : gostring := str "a" ++ spaces 1998 ++ str "b".

Example TrimSpace_ascii :
  TrimSpace (str "  hello world  ") = str "hello world".
Proof. reflexivity. Qed.

(** U+00A0 and U+3000 are trimmed, an isolated continuation byte is not. *)
Example TrimSpace_unicode :
  TrimSpace (["194"; "160"; "a"; "227"; "128"; "128"; " "])%char = ["a"]%char
  /\ TrimSpace ([" "; "160"; " "])%char = ["160"]%char.
Proof. split; reflexivity. Qed.

Example Split_paragraphs :
  Split (str "a" ++ newlines 1 ++ str "b" ++ newlines 3 ++ str "c" ++ newlines 2)
  = [str "a" ++ newlines 1 ++ str "b"; str "c"; []].
Proof. reflexivity. Qed.

Example Ext_examples :
  Ext (str "docs/scan.PDF") = str ".PDF"
  /\ Ext (str "archive.tar.gz") = str ".gz"
  /\ Ext (str "a.b/README") = []
  /\ ToLower (Ext (str "docs/scan.PDF")) = str ".pdf".
Proof. repeat split; reflexivity. Qed.

Example itoa_examples : itoa 0 = str "0" /\ itoa 768 = str "768".
Proof. split; reflexivity. Qed.

Example wrap_examples :
  wrap (2 ^ 63 - 1) = (2 ^ 63 - 1)%Z /\ wrap (2 ^ 63) = (- 2 ^ 63)%Z.
Proof. split; reflexivity. Qed.

Example ChunkText_small :
  ChunkText (str " one " ++ newlines 2 ++ str "  " ++ newlines 2 ++ str "two")
  = Returns [str "one"; str "two"].
Proof. reflexivity. Qed.

(* ================================================================== *)
(** ** Facts about the string model *)
(* ================================================================== *)

Lemma wrap_id (z : Z) : (- 2 ^ 63 <= z < 2 ^ 63)%Z -> wrap z = z.
Proof.
  intros H. unfold wrap. rewrite Z.mod_small; lia.
Qed.

Lemma slice_length (s : gostring) (i j : nat) :
  i <= j -> j <= length s -> length (slice s i j) = j - i.
Proof.
  intros Hij Hj. unfold slice.
  rewrite length_firstn, length_skipn. lia.
Qed.

Lemma TrimRightFunc_length (s : gostring) (f : N -> bool) :
  length (TrimRightFunc s f) <= length s.
Proof.
  unfold TrimRightFunc.
  destruct (lastIndexFunc_false _ _ _ _) as [i|]; simpl; [|lia].
  destruct (nth_error s i) as [c|];
    [destruct (RuneSelf <=? byteval c)%N|]; rewrite length_firstn; lia.
Qed.

Lemma TrimLeftFunc_length (s : gostring) (f : N -> bool) :
  length (TrimLeftFunc s f) <= length s.
Proof.
  unfold TrimLeftFunc.
  destruct (indexFunc_false _ _ _ _) as [i|]; simpl; [|lia].
  rewrite length_skipn. lia.
Qed.

Lemma TrimSpace_stop_length (s : gostring) (stop : nat) :
  length (TrimSpace_stop s stop) <= length s.
Proof.
  induction stop as [|k IH]; cbn [TrimSpace_stop]; [simpl; lia|].
  destruct (nth_error s k) as [c|]; [|simpl; lia].
  destruct (RuneSelf <=? byteval c)%N.
  - etransitivity; [apply TrimRightFunc_length|].
    rewrite length_firstn. lia.
  - destruct (asciiSpace c); [exact IH|].
    rewrite length_firstn. lia.
Qed.

Lemma TrimSpace_length (s : gostring) : length (TrimSpace s) <= length s.
Proof.
  induction s as [|c t IH]; [simpl; lia|].
  cbn [TrimSpace].
  destruct (RuneSelf <=? byteval c)%N.
  - unfold TrimFunc. etransitivity; [apply TrimRightFunc_length|].
    apply TrimLeftFunc_length.
  - destruct (asciiSpace c).
    + simpl. lia.
    + apply TrimSpace_stop_length.
Qed.

Lemma asciiSpace_below_RuneSelf (c : ascii) :
  asciiSpace c = true -> (RuneSelf <=? byteval c)%N = false.
Proof.
  unfold asciiSpace, RuneSelf. intros H.
  apply N.leb_gt.
  apply orb_true_iff in H as [H|H].
  - apply andb_true_iff in H as [_ H]. apply N.leb_le in H. lia.
  - apply N.eqb_eq in H. lia.
Qed.

(** A string of ASCII white space trims to the empty string. *)
Lemma TrimSpace_blank (s : gostring) :
  forallb asciiSpace s = true -> TrimSpace s = [].
Proof.
  induction s as [|c t IH]; [reflexivity|].
  simpl forallb. intros H. apply andb_true_iff in H as [Hc Ht].
  cbn [TrimSpace]. rewrite (asciiSpace_below_RuneSelf _ Hc), Hc. auto.
Qed.

(* ================================================================== *)
(** ** The chunker *)
(* ================================================================== *)

Section SplitLong.

Variable s : gostring.
Variables max overlap : Z.
Hypothesis overlap_range : (0 <= overlap < max)%Z.
Hypothesis no_overflow : (len s + max < 2 ^ 63)%Z.

Let step : Z := (max - overlap)%Z.

(** The text appended by the iteration that starts at offset [i]. *)
Let emitted (i : Z) (j : nat) : gostring :=
  TrimSpace (slice s (Z.to_nat (i + Z.of_nat j * step))
                     (Z.to_nat (Z.min (i + Z.of_nat j * step + max) (len s)))).

(** Started at offset [i] with [n] more full windows before the end of the
    string is reached, the loop appends [n + 1] windows and returns. *)
Lemma splitLong_loop_spec (n : nat) :
  forall (fuel : nat) (i : Z) (res : list gostring),
    (0 <= i < len s)%Z ->
    n < fuel ->
    (len s <= i + Z.of_nat n * step + max)%Z ->
    (forall j, j < n -> (i + Z.of_nat j * step + max < len s)%Z) ->
    splitLong_loop fuel s max overlap i res
    = Returns (res ++ map (emitted i) (seq 0 (S n))).
Proof.
  assert (Hlen : (0 <= len s)%Z) by (unfold len; lia).
  induction n as [|n IH]; intros fuel i res Hi Hfuel Hlast Hfull;
    (destruct fuel as [|fuel]; [lia|]); cbn [splitLong_loop].
  - assert (Hlt : (i <? len s)%Z = true) by (apply Z.ltb_lt; lia).
    rewrite Hlt. unfold int_add. rewrite wrap_id by lia.
    simpl Z.of_nat in Hlast.
    assert (Hend : (if (i + max >? len s)%Z then len s else (i + max)%Z)
                   = len s).
    { destruct (Z.gtb_spec (i + max) (len s)); lia. }
    rewrite Hend. unfold slice_checked.
    replace ((0 <=? i) && (i <=? len s) && (len s <=? len s))%Z with true
      by (symmetry; rewrite !andb_true_iff, !Z.leb_le; lia).
    rewrite Z.eqb_refl. simpl map. unfold emitted. simpl Z.of_nat.
    rewrite Z.mul_0_l, Z.add_0_r, Z.min_r by lia. reflexivity.
  - assert (Hlt : (i <? len s)%Z = true) by (apply Z.ltb_lt; lia).
    rewrite Hlt. unfold int_add, int_sub.
    pose proof (Hfull 0%nat ltac:(lia)) as H0. simpl Z.of_nat in H0.
    rewrite (wrap_id (i + max)%Z) by lia.
    rewrite (wrap_id (max - overlap)%Z) by lia.
    rewrite (wrap_id (i + (max - overlap))%Z) by lia.
    assert (Hend : (if (i + max >? len s)%Z then len s else (i + max)%Z)
                   = (i + max)%Z).
    { destruct (Z.gtb_spec (i + max) (len s)); lia. }
    rewrite Hend. unfold slice_checked.
    replace ((0 <=? i) && (i <=? i + max) && (i + max <=? len s))%Z with true
      by (symmetry; rewrite !andb_true_iff, !Z.leb_le; lia).
    replace (i + max =? len s)%Z with false
      by (symmetry; apply Z.eqb_neq; lia).
    fold step. rewrite IH.
    + rewrite <- app_assoc. f_equal.
      assert (Hhead : emitted i 0
                      = TrimSpace (slice s (Z.to_nat i) (Z.to_nat (i + max)))).
      { unfold emitted. simpl Z.of_nat.
        rewrite Z.mul_0_l, Z.add_0_r, Z.min_l by lia. reflexivity. }
      assert (Htail : forall j, emitted i (S j) = emitted (i + step) j).
      { intros j. unfold emitted. rewrite Nat2Z.inj_succ.
        replace (i + step + Z.of_nat j * step)%Z
          with (i + Z.succ (Z.of_nat j) * step)%Z by lia.
        reflexivity. }
      change (seq 0 (S (S n))) with (0%nat :: seq 1 (S n)).
      rewrite <- seq_shift, map_cons, map_map, Hhead.
      rewrite (map_ext _ _ Htail). reflexivity.
    + unfold step. lia.
    + lia.
    + rewrite Nat2Z.inj_succ in Hlast. lia.
    + intros j Hj. pose proof (Hfull (S j) ltac:(lia)) as Hj'.
      rewrite Nat2Z.inj_succ in Hj'. lia.
Qed.

End SplitLong.

Lemma ceil_div_spec (a b : Z) :
  (0 < b)%Z ->
  ((ceil_div a b - 1) * b < a <= ceil_div a b * b)%Z.
Proof.
  intros Hb. unfold ceil_div.
  pose proof (Z.div_mod (a + b - 1) b ltac:(lia)) as Hdm.
  pose proof (Z.mod_pos_bound (a + b - 1) b Hb) as Hmod.
  nia.
Qed.

Lemma window_text_length (s : gostring) (max overlap : Z) (k : nat) :
  (0 <= window_start max overlap k <= window_end s max overlap k)%Z ->
  len (window_text s max overlap k)
  = (window_end s max overlap k - window_start max overlap k)%Z.
Proof.
  intros H. unfold len, window_text.
  assert (Hle : (window_end s max overlap k <= len s)%Z)
    by (unfold window_end; lia).
  unfold len in Hle.
  rewrite slice_length by lia. lia.
Qed.

(** On a paragraph longer than [max] the loop runs to its [break] and
    returns the trimmed windows, [ceil((L - max) / (max - overlap)) + 1] of
    them. *)
Lemma splitLong_long (s : gostring) (max overlap : Z) :
  (0 <= overlap < max)%Z ->
  (max < len s)%Z ->
  (len s + max < 2 ^ 63)%Z ->
  splitLong s max overlap
  = Returns (map (fun k => TrimSpace (window_text s max overlap k))
                 (seq 0 (S (Z.to_nat (ceil_div (len s - max)
                                               (max - overlap)))))).
Proof.
  intros Hov Hlong Hbig.
  pose proof (ceil_div_spec (len s - max) (max - overlap) ltac:(lia)) as Hc.
  set (c := ceil_div (len s - max) (max - overlap)) in *.
  assert (Hc1 : (1 <= c)%Z) by nia.
  assert (Hcle : (c <= len s - max)%Z) by nia.
  assert (Hn : Z.of_nat (Z.to_nat c) = c) by lia.
  unfold splitLong.
  replace (len s <=? max)%Z with false by (symmetry; apply Z.leb_gt; lia).
  rewrite (splitLong_loop_spec s max overlap Hov Hbig (Z.to_nat c)).
  - reflexivity.
  - lia.
  - unfold len in *. lia.
  - rewrite Hn. lia.
  - intros j Hj. nia.
Qed.

(** C3. A paragraph longer than [max], split with [0 <= overlap < max],
    yields [ceil((L - max) / (max - overlap)) + 1] windows.  Window [k] is
    the trimmed text of the byte range that starts [k * (max - overlap)]
    bytes in and runs for [max] bytes, or to the end of the string for the
    last one; window 0 is [[0, max)]; no window is longer than [max]; and
    each window but the last shares exactly its final [overlap] positions
    with its successor. *)
Theorem C3_splitLong_windows (s : gostring) (max overlap : Z) :
  (0 <= overlap < max)%Z ->
  (max < len s)%Z ->
  (len s + max < 2 ^ 63)%Z ->
  exists ws : list gostring,
    splitLong s max overlap = Returns ws
    /\ Z.of_nat (length ws)
       = (ceil_div (len s - max) (max - overlap) + 1)%Z
    /\ ((ceil_div (len s - max) (max - overlap) - 1) * (max - overlap)
        < len s - max
        <= ceil_div (len s - max) (max - overlap) * (max - overlap))%Z
    /\ window_start max overlap 0 = 0%Z
    /\ window_end s max overlap 0 = max
    /\ forall k : nat, k < length ws ->
         nth_error ws k = Some (TrimSpace (window_text s max overlap k))
         /\ (0 <= window_start max overlap k < window_end s max overlap k)%Z
         /\ (window_end s max overlap k <= len s)%Z
         /\ len (window_text s max overlap k)
            = (window_end s max overlap k - window_start max overlap k)%Z
         /\ (len (window_text s max overlap k) <= max)%Z
         /\ (len (TrimSpace (window_text s max overlap k)) <= max)%Z
         /\ (S k < length ws ->
               window_end s max overlap k
               = (window_start max overlap k + max)%Z
               /\ window_start max overlap (S k)
                  = (window_start max overlap k + (max - overlap))%Z
               /\ (window_end s max overlap k
                   - window_start max overlap (S k))%Z = overlap
               /\ (window_end s max overlap k
                   < window_end s max overlap (S k))%Z)
         /\ (S k = length ws -> window_end s max overlap k = len s).
Proof.
  intros Hov Hlong Hbig.
  pose proof (ceil_div_spec (len s - max) (max - overlap) ltac:(lia)) as Hc.
  set (c := ceil_div (len s - max) (max - overlap)) in *.
  assert (Hc1 : (1 <= c)%Z) by nia.
  assert (Hcle : (c <= len s - max)%Z) by nia.
  set (n := Z.to_nat c).
  assert (Hn : Z.of_nat n = c) by (unfold n; lia).
  pose proof (splitLong_long s max overlap Hov Hlong Hbig) as Hrun.
  fold c n in Hrun.
  eexists. split; [exact Hrun|].
  rewrite length_map, length_seq.
  split; [lia|]. split; [exact Hc|].
  split; [reflexivity|].
  split; [unfold window_end, window_start; simpl Z.of_nat; lia|].
  intros k Hk.
  assert (Hstart : (0 <= window_start max overlap k)%Z)
    by (unfold window_start; nia).
  assert (Hbefore : (window_start max overlap k < len s)%Z)
    by (unfold window_start; nia).
  assert (Hend : (window_start max overlap k < window_end s max overlap k
                  <= len s)%Z)
    by (unfold window_end; lia).
  assert (Hwlen : len (window_text s max overlap k)
                  = (window_end s max overlap k - window_start max overlap k)%Z)
    by (apply window_text_length; lia).
  assert (Hwmax : (len (window_text s max overlap k) <= max)%Z)
    by (rewrite Hwlen; unfold window_end; lia).
  split.
  { rewrite nth_error_map, nth_error_seq.
    replace (k <? S n) with true by (symmetry; apply Nat.ltb_lt; lia).
    reflexivity. }
  split; [lia|]. split; [lia|]. split; [exact Hwlen|]. split; [exact Hwmax|].
  split.
  { pose proof (TrimSpace_length (window_text s max overlap k)) as Ht.
    unfold len in *. lia. }
  split.
  - intros Hnext.
    assert (Hfull : (window_start max overlap k + max < len s)%Z)
      by (unfold window_start; nia).
    assert (Hs : window_start max overlap (S k)
                 = (window_start max overlap k + (max - overlap))%Z)
      by (unfold window_start; rewrite Nat2Z.inj_succ; lia).
    unfold window_end. rewrite Hs. lia.
  - intros Hlast.
    assert (Hk' : Z.of_nat k = c) by lia.
    unfold window_end, window_start. rewrite Hk'. lia.
Qed.

Lemma C3_splitLong_windows_witness :
  ((0 <= 200 < 1000)%Z /\ (1000 < len sparse_paragraph)%Z
   /\ (len sparse_paragraph + 1000 < 2 ^ 63)%Z)
  /\ exists ws : list gostring,
       splitLong sparse_paragraph 1000 200 = Returns ws
       /\ Z.of_nat (length ws) = 3%Z.
Proof.
  assert (H1 : (0 <= 200 < 1000)%Z) by lia.
  assert (H2 : (1000 < len sparse_paragraph)%Z) by (vm_compute; reflexivity).
  assert (H3 : (len sparse_paragraph + 1000 < 2 ^ 63)%Z)
    by (vm_compute; reflexivity).
  split; [auto|].
  destruct (C3_splitLong_windows sparse_paragraph 1000 200 H1 H2 H3)
    as (ws & Hrun & Hcount & _).
  exists ws. split; [exact Hrun|].
  rewrite Hcount. vm_compute. reflexivity.
Defined.

Lemma forallb_firstn {A : Type} (P : A -> bool) (n : nat) (l : list A) :
  forallb P l = true -> forallb P (firstn n l) = true.
Proof.
  revert n. induction l as [|x l IH]; intros [|n] H; simpl in *; auto.
  apply andb_true_iff in H as [Hx Hl]. rewrite Hx. simpl. auto.
Qed.

Lemma forallb_skipn {A : Type} (P : A -> bool) (n : nat) (l : list A) :
  forallb P l = true -> forallb P (skipn n l) = true.
Proof.
  revert n. induction l as [|x l IH]; intros [|n] H; simpl in *; auto.
  apply andb_true_iff in H as [Hx Hl]. auto.
Qed.

Lemma forallb_slice (P : ascii -> bool) (s : gostring) (i j : nat) :
  forallb P s = true -> forallb P (slice s i j) = true.
Proof.
  intros H. unfold slice. apply forallb_firstn, forallb_skipn, H.
Qed.

(** Every piece of a split is a slice of the text. *)
Lemma Split_loop_slices (s : gostring) :
  forall (matches : list (nat * nat)) (beg end_ : nat)
         (strings : list gostring),
    Forall (fun p => exists i j : nat, p = slice s i j) strings ->
    Forall (fun p => exists i j : nat, p = slice s i j)
           (snd (Split_loop s matches beg end_ strings)).
Proof.
  induction matches as [|[m0 m1] rest IH];
    intros beg end_ strings Hacc; cbn [Split_loop]; [exact Hacc|].
  apply IH. destruct (m1 =? 0); [exact Hacc|].
  apply Forall_app. split; [exact Hacc|].
  constructor; [|constructor]. exists beg, m0. reflexivity.
Qed.

Lemma Split_slices (s : gostring) :
  Forall (fun p => exists i j : nat, p = slice s i j) (Split s).
Proof.
  unfold Split.
  destruct (length s =? 0).
  { constructor; [|constructor]. exists 0, 0. destruct s; reflexivity. }
  pose proof (Split_loop_slices s (FindAllStringIndex (length s) s 0) 0 0 []
                                (Forall_nil _)) as Hloop.
  destruct (Split_loop _ _ _ _ _) as [[beg end_] strings] eqn:E.
  try rewrite E in Hloop. simpl in Hloop.
  destruct (end_ =? length s); [exact Hloop|].
  apply Forall_app. split; [exact Hloop|].
  constructor; [|constructor]. exists beg, (length s). reflexivity.
Qed.

Lemma Split_forallb (P : ascii -> bool) (s : gostring) :
  forallb P s = true ->
  Forall (fun p => forallb P p = true) (Split s).
Proof.
  intros Hs. eapply Forall_impl; [|apply Split_slices].
  intros p (i & j & ->). apply forallb_slice, Hs.
Qed.

Lemma Split_lengths (s : gostring) :
  Forall (fun p => length p <= length s) (Split s).
Proof.
  eapply Forall_impl; [|apply Split_slices].
  intros p (i & j & ->). unfold slice.
  rewrite length_firstn, length_skipn. lia.
Qed.

Lemma splitLong_returns (s : gostring) (max overlap : Z) :
  (0 <= overlap < max)%Z ->
  (len s + max < 2 ^ 63)%Z ->
  exists ws : list gostring, splitLong s max overlap = Returns ws.
Proof.
  intros Hov Hbig.
  destruct (Z.leb_spec (len s) max) as [Hshort|Hlong].
  - exists [s]. unfold splitLong.
    replace (len s <=? max)%Z with true by (symmetry; apply Z.leb_le; lia).
    reflexivity.
  - eexists. apply splitLong_long; assumption.
Qed.

Lemma ChunkText_loop_returns (paras : list gostring) :
  Forall (fun p => (len p + 1000 < 2 ^ 63)%Z) paras ->
  forall out : list gostring,
  exists chunks : list gostring, ChunkText_loop paras out = Returns chunks.
Proof.
  induction 1 as [|p rest Hp _ IH]; intros out; cbn [ChunkText_loop].
  - exists out. reflexivity.
  - destruct (is_empty (TrimSpace p)); [apply IH|].
    destruct (splitLong_returns (TrimSpace p) 1000 200) as [ws Hws].
    + lia.
    + pose proof (TrimSpace_length p). unfold len in *. lia.
    + rewrite Hws. apply IH.
Qed.

(** [ChunkText] returns on every text of a length a Go string can have in
    practice: neither the model's fuel nor the [int] range is exhausted. *)
Lemma ChunkText_returns (text : gostring) :
  (len text + 1000 < 2 ^ 63)%Z ->
  exists chunks : list gostring, ChunkText text = Returns chunks.
Proof.
  intros Hbig. unfold ChunkText. apply ChunkText_loop_returns.
  eapply Forall_impl; [|apply Split_lengths].
  cbv beta. intros p Hp. unfold len in *. lia.
Qed.

Lemma ChunkText_loop_blank (paras out : list gostring) :
  Forall (fun p => forallb asciiSpace p = true) paras ->
  ChunkText_loop paras out = Returns out.
Proof.
  induction 1 as [|p rest Hp _ IH]; cbn [ChunkText_loop]; [reflexivity|].
  rewrite (TrimSpace_blank p Hp). exact IH.
Qed.

(** A document of ASCII white space only, the empty document included,
    yields zero chunks. *)
Lemma ChunkText_blank (text : gostring) :
  forallb asciiSpace text = true -> ChunkText text = Returns [].
Proof.
  intros H. unfold ChunkText.
  apply ChunkText_loop_blank, Split_forallb, H.
Qed.

(** C1. The chunker is meant to emit no empty chunk: [ChunkText] drops a
    paragraph that trims to the empty string.  The windows of a long
    paragraph are trimmed too but not checked: on a 2000-byte paragraph
    whose middle window [[800, 1800)] is all spaces the second chunk
    returned is the empty string. *)
Theorem C1_ChunkText_emits_empty_chunk :
  ChunkText sparse_paragraph = Returns [str "a"; []; str "b"].
Proof. vm_compute. reflexivity. Qed.

(* ================================================================== *)
(** ** The answer workflow *)
(* ================================================================== *)

(** C8. The critique stage always succeeds and touches nothing but the
    answer: an answer shorter than 50 bytes gets one copy of the advisory
    suffix appended, an answer of 50 bytes or more leaves the whole state as
    it was.  The suffix is the fixed 82-byte note, two newlines and
    "(Note: result short; consider rephrasing your query or indexing more
    documents.)", so a short answer does change and grows by exactly those
    82 bytes. *)
Theorem C8_CriticNode_suffix (s : State) (w : World) :
  exists s' : State,
    CriticNode s w = ((None, s'), w)
    /\ Query s' = Query s /\ Docs s' = Docs s /\ DB s' = DB s
    /\ ((len (Ans s) < 50)%Z ->
          Ans s' = Ans s ++ advisory_suffix
          /\ length (Ans s') = length (Ans s) + length advisory_suffix)
    /\ ((50 <= len (Ans s))%Z -> s' = s)
    /\ advisory_suffix
       = nl ++ nl
         ++ str "(Note: result short; consider rephrasing your query or indexing more documents.)"
    /\ length advisory_suffix = 82
    /\ ((len (Ans s) < 50)%Z ->
          Ans s'
          = Ans s ++ nl ++ nl
            ++ str "(Note: result short; consider rephrasing your query or indexing more documents.)"
          /\ length (Ans s') = length (Ans s) + 82
          /\ Ans s' <> Ans s
          /\ Ans s' <> Ans s ++ advisory_suffix ++ advisory_suffix).
Proof.
  assert (Hlit : advisory_suffix
                 = nl ++ nl
                   ++ str "(Note: result short; consider rephrasing your query or indexing more documents.)")
    by reflexivity.
  assert (Hlen : length advisory_suffix = 82) by reflexivity.
  unfold CriticNode.
  destruct (Z.ltb_spec (len (Ans s)) 50) as [Hshort|Hlong].
  - eexists. split; [reflexivity|]. cbn [Query Docs DB Ans set_Ans].
    split; [reflexivity|]. split; [reflexivity|]. split; [reflexivity|].
    split; [intros _; split; [reflexivity|apply length_app]|].
    split; [lia|]. split; [exact Hlit|]. split; [exact Hlen|].
    intros _. split; [reflexivity|].
    split; [rewrite length_app, Hlen; reflexivity|].
    split; intros Heq; apply (f_equal (@length ascii)) in Heq;
      rewrite ?length_app, ?Hlen in Heq; lia.
  - exists s. split; [reflexivity|].
    split; [reflexivity|]. split; [reflexivity|]. split; [reflexivity|].
    split; [lia|]. split; [reflexivity|]. split; [exact Hlit|].
    split; [exact Hlen|]. lia.
Qed.

Lemma C8_CriticNode_suffix_witness :
  fst (fst (CriticNode (state_with [] (str "Too short.")) world0)) = None
  /\ Ans (snd (fst (CriticNode (state_with [] (str "Too short.")) world0)))
     = str "Too short." ++ advisory_suffix
  /\ snd (fst (CriticNode (state_with [] (spaces 49 ++ str "x")) world0))
     = state_with [] (spaces 49 ++ str "x")
  /\ Ans (snd (fst (CriticNode (state_with [] (str "Too short.")) world0)))
     = str "Too short." ++ nl ++ nl
       ++ str "(Note: result short; consider rephrasing your query or indexing more documents.)"
  /\ length (Ans (snd (fst (CriticNode (state_with [] (str "Too short."))
                                       world0))))
     = 92.
Proof.
  destruct (C8_CriticNode_suffix (state_with [] (str "Too short.")) world0)
    as (s1 & Hrun1 & _ & _ & _ & Hshort & _ & _ & _ & Hpinned).
  destruct (C8_CriticNode_suffix (state_with [] (spaces 49 ++ str "x")) world0)
    as (s2 & Hrun2 & _ & _ & _ & _ & Hlong & _).
  assert (H10 : (len (Ans (state_with [] (str "Too short."))) < 50)%Z)
    by (vm_compute; reflexivity).
  destruct (Hpinned H10) as (Htext & Hlength & _ & _).
  rewrite Hrun1, Hrun2. cbn [fst snd].
  split; [reflexivity|]. split; [apply Hshort, H10|].
  split; [apply Hlong; vm_compute; discriminate|].
  split; [exact Htext|]. rewrite Hlength. reflexivity.
Defined.

(** C6. With no retrieved document the summarize stage sets the answer to
    the fixed message and succeeds; the world, and with it the trace of
    backend calls, is left exactly as it was. *)
Theorem C6_SummarizerNode_no_documents (env : Env) (s : State) (w : World) :
  Docs s = [] ->
  SummarizerNode env s w = ((None, set_Ans s no_documents_message), w)
  /\ no_documents_message = str "No documents found matching the query."
  /\ filter is_http (trace (snd (SummarizerNode env s w)))
     = filter is_http (trace w).
Proof.
  intros Hdocs. unfold SummarizerNode. rewrite Hdocs. cbn [length Nat.eqb].
  repeat split; reflexivity.
Qed.

Lemma C6_SummarizerNode_no_documents_witness :
  SummarizerNode blank_scan_env (state_with [] []) world0
  = ((None, state_with [] (str "No documents found matching the query.")),
     world0).
Proof.
  apply (C6_SummarizerNode_no_documents blank_scan_env (state_with [] [])
                                        world0).
  reflexivity.
Defined.

(** Not-done fragments are appended to the builder in arrival order and the
    loop goes on with what follows them. *)
Lemma read_stream_not_done (rs : list gostring) :
  forall (rest : list decode_step) (summary : gostring),
    read_stream (map not_done rs ++ rest) summary
    = read_stream rest (summary ++ concat rs).
Proof.
  induction rs as [|r rs IH]; intros rest summary; cbn [map app concat].
  - rewrite app_nil_r. reflexivity.
  - cbn [read_stream not_done]. fold (not_done r).
    rewrite IH, <- app_assoc. reflexivity.
Qed.

(** C7. On a non-empty document list and an answered request, the
    summarize stage reads the streamed fragments in order.  After the
    not-done fragments [rs]: a fragment flagged done ends the reading, the
    answer is the texts of [rs] and of that fragment in arrival order, and
    whatever follows in the stream is left unread; the end of the stream
    ends the reading with the texts of [rs] as the answer; a fragment that
    fails to decode makes the stage fail with the state untouched. *)
Theorem C7_SummarizerNode_stream (env : Env) (s : State) (w : World)
        (resp : HttpResponse) (rs : list gostring) :
  Docs s <> [] ->
  http_do env w generateURL
          {| Model := str "llama3"; Prompt := build_prompt env s |} = Ok resp ->
  let stream := json_decode_stream env (Body resp) in
  let w' := {| trace := trace w
                        ++ [EvHttpPost generateURL
                              {| Model := str "llama3";
                                 Prompt := build_prompt env s |}];
               files := files w |} in
  (forall (last : gostring) (unread : list decode_step),
      stream = map not_done rs ++ Fragment last true :: unread ->
      SummarizerNode env s w = ((None, set_Ans s (concat rs ++ last)), w')
      /\ snd (read_stream stream []) = unread)
  /\ (stream = map not_done rs ->
      SummarizerNode env s w = ((None, set_Ans s (concat rs)), w'))
  /\ (forall (e : error) (unread : list decode_step),
      stream = map not_done rs ++ DecodeFailure e :: unread ->
      SummarizerNode env s w
      = ((Some (str "decoding ollama response: " ++ e), s), w')).
Proof.
  intros Hdocs Hresp stream w'.
  assert (Hrun : forall out : result gostring * list decode_step,
             read_stream stream [] = out ->
             SummarizerNode env s w
             = (match fst out with
                | Err e => (Some (str "decoding ollama response: " ++ e), s)
                | Ok summary => (None, set_Ans s summary)
                end, w')).
  { intros out Hout. unfold SummarizerNode.
    destruct (Docs s) as [|d ds] eqn:Hd; [congruence|].
    cbn [length Nat.eqb]. unfold bind, call. rewrite Hresp.
    fold stream. rewrite Hout.
    destruct (fst out); reflexivity. }
  split; [|split].
  - intros last unread Hs.
    assert (Hread : read_stream stream [] = (Ok (concat rs ++ last), unread)).
    { rewrite Hs, read_stream_not_done. reflexivity. }
    split; [rewrite (Hrun _ Hread); reflexivity|].
    rewrite Hread. reflexivity.
  - intros Hs.
    assert (Hread : read_stream stream [] = (Ok (concat rs), [])).
    { rewrite Hs, <- (app_nil_r (map not_done rs)), read_stream_not_done.
      reflexivity. }
    rewrite (Hrun _ Hread). reflexivity.
  - intros e unread Hs.
    assert (Hread : read_stream stream [] = (Err e, unread)).
    { rewrite Hs, read_stream_not_done. reflexivity. }
    rewrite (Hrun _ Hread). reflexivity.
Qed.

Lemma C7_SummarizerNode_stream_witness :
  Ans (snd (fst (SummarizerNode blank_scan_env
                                (state_with [str "a document"] []) world0)))
  = str "Hello, world".
Proof.
  pose proof (C7_SummarizerNode_stream blank_scan_env
                (state_with [str "a document"] []) world0
                {| StatusCode := 200;
                   Body := build_prompt blank_scan_env
                             (state_with [str "a document"] []) |}
                [str "Hello"]
                ltac:(discriminate) eq_refl) as H.
  cbv zeta in H. destruct H as (Hdone & _ & _).
  destruct (Hdone (str ", world") [Fragment (str " (never read)") false]
                  eq_refl) as [Hrun _].
  rewrite Hrun. reflexivity.
Defined.

(* ================================================================== *)
(** ** The embedder *)
(* ================================================================== *)

Lemma set_index_app {A : Type} (done : list A) (x v : A) (rest : list A) :
  set_index (done ++ x :: rest) (length done) v = done ++ v :: rest.
Proof.
  induction done as [|d done IH]; cbn [app length set_index];
    [reflexivity|]. rewrite IH. reflexivity.
Qed.

(** An accepted vector is the decoded vector of a 200 response and has the
    configured dimension. *)
Lemma getOllamaEmbedding_Ok_inv (env : Env) (text : gostring) (w w' : World)
      (v : list float32) :
  getOllamaEmbedding env text w = (Ok v, w') ->
  exists resp : HttpResponse,
    http_do env w ollamaURL
            {| Model := str "nomic-embed-text"; Prompt := text |} = Ok resp
    /\ StatusCode resp = 200%Z
    /\ json_decode_embedding env (Body resp) = Ok v
    /\ length v = EmbeddingDim.
Proof.
  unfold getOllamaEmbedding, bind, call, ret.
  destruct (http_do env w ollamaURL _) as [resp|e] eqn:Hpost; [|discriminate].
  destruct (Z.eqb_spec (StatusCode resp) 200) as [Hst|Hst];
    cbn [negb]; [|discriminate].
  destruct (json_decode_embedding env (Body resp)) as [emb|e] eqn:Hdec;
    [|discriminate].
  destruct (Nat.eqb_spec (length emb) EmbeddingDim) as [Hdim|Hdim];
    cbn [negb]; [|discriminate].
  intros H. injection H as Hv _. subst v.
  exists resp. repeat split; assumption.
Qed.

Lemma embeds_length (env : Env) (chunks : list gostring) (w w' : World)
      (vs : list (list float32)) :
  embeds env chunks w vs w' -> length vs = length chunks.
Proof.
  induction 1; simpl; auto.
Qed.

Lemma embeds_dimension (env : Env) (chunks : list gostring) (w w' : World)
      (vs : list (list float32)) :
  embeds env chunks w vs w' ->
  Forall (fun v => length v = EmbeddingDim) vs.
Proof.
  induction 1 as [|c cs w w1 w2 v vs Hc _ IH]; constructor; [|exact IH].
  destruct (getOllamaEmbedding_Ok_inv _ _ _ _ _ Hc) as (resp & _ & _ & _ & Hdim).
  exact Hdim.
Qed.

Lemma EmbedChunks_loop_ok (env : Env) (chunks : list gostring) (w w' : World)
      (vs : list (list float32)) :
  embeds env chunks w vs w' ->
  forall done : list (list float32),
    EmbedChunks_loop env chunks (length done)
                     (done ++ repeat [] (length chunks)) w
    = (Ok (done ++ vs), w').
Proof.
  induction 1 as [w|c cs w w1 w2 v vs Hc _ IH]; intros done;
    cbn [EmbedChunks_loop length repeat].
  - unfold ret. rewrite !app_nil_r. reflexivity.
  - unfold bind. rewrite Hc, set_index_app.
    replace (done ++ v :: repeat [] (length cs))
      with ((done ++ [v]) ++ repeat [] (length cs))
      by (rewrite <- app_assoc; reflexivity).
    replace (S (length done)) with (length (done ++ [v]))
      by (rewrite length_app; simpl; lia).
    rewrite IH, <- app_assoc. reflexivity.
Qed.

Lemma EmbedChunks_loop_err (env : Env) (pre : list gostring) (w w1 : World)
      (vs : list (list float32)) :
  embeds env pre w vs w1 ->
  forall (c : gostring) (post : list gostring) (e : error) (w2 : World)
         (i : nat) (out : list (list float32)),
    getOllamaEmbedding env c w1 = (Err e, w2) ->
    EmbedChunks_loop env (pre ++ c :: post) i out w
    = (Err (str "failed embedding chunk " ++ itoa (i + length pre)
            ++ str ": " ++ e), w2).
Proof.
  induction 1 as [w|c0 cs w w1 w2 v vs Hc _ IH];
    intros c post e w3 i out Herr; cbn [app EmbedChunks_loop length].
  - unfold bind. rewrite Herr, Nat.add_0_r. reflexivity.
  - unfold bind. rewrite Hc, (IH _ _ _ _ _ _ Herr).
    replace (S i + length cs) with (i + S (length cs)) by lia. reflexivity.
Qed.

(** Every batch either succeeds on all items or has a first failing item. *)
Lemma embeds_or_fails (env : Env) (chunks : list gostring) :
  forall w : World,
    (exists vs w', embeds env chunks w vs w')
    \/ (exists pre c post vs w1 e w2,
           chunks = pre ++ c :: post
           /\ embeds env pre w vs w1
           /\ getOllamaEmbedding env c w1 = (Err e, w2)).
Proof.
  induction chunks as [|c cs IH]; intros w.
  - left. exists [], w. constructor.
  - destruct (getOllamaEmbedding env c w) as [[v|e] w1] eqn:Hc.
    + destruct (IH w1) as [(vs & w' & Hall)
                          |(pre & c' & post & vs & w2 & e & w3 & Heq & Hpre & He)].
      * left. exists (v :: vs), w'. econstructor; eauto.
      * right. exists (c :: pre), c', post, (v :: vs), w2, e, w3.
        subst cs. repeat split; auto. econstructor; eauto.
    + right. exists [], c, cs, [], w, e, w1.
      repeat split; auto. constructor.
Qed.

(** The two ways a non-empty batch can end. *)
Lemma EmbedChunks_batch_ends (env : Env) (chunks : list gostring) (w : World) :
  chunks <> [] ->
  (forall (vs : list (list float32)) (w' : World),
      embeds env chunks w vs w' ->
      EmbedChunks env chunks w = (Ok vs, w'))
  /\ (forall (pre : list gostring) (c : gostring) (post : list gostring)
             (vs : list (list float32)) (w1 w2 : World) (e : error),
         chunks = pre ++ c :: post ->
         embeds env pre w vs w1 ->
         getOllamaEmbedding env c w1 = (Err e, w2) ->
         EmbedChunks env chunks w
         = (Err (str "failed embedding chunk " ++ itoa (length pre)
                 ++ str ": " ++ e), w2)).
Proof.
  intros Hne.
  assert (Hrun : EmbedChunks env chunks w
                 = EmbedChunks_loop env chunks 0
                                    (repeat [] (length chunks)) w).
  { unfold EmbedChunks. destruct chunks; [congruence|reflexivity]. }
  split.
  - intros vs w' Hall.
    rewrite Hrun. exact (EmbedChunks_loop_ok env chunks w w' vs Hall []).
  - intros pre c post vs w1 w2 e Heq Hpre Herr.
    rewrite Hrun, Heq.
    exact (EmbedChunks_loop_err env pre w w1 vs Hpre c post e w2 0 _ Herr).
Qed.

(** C4. A non-empty batch whose items all embed successfully comes back as
    exactly one vector per item, in item order.  If the items before
    position [length pre] succeed and the item at that position fails, the
    batch fails with an error naming that 0-based position, and no later
    item is sent to the backend: the world is the one the failing call
    left. *)
Theorem C4_EmbedChunks_batch (env : Env) (chunks : list gostring) (w : World) :
  chunks <> [] ->
  (forall (vs : list (list float32)) (w' : World),
      embeds env chunks w vs w' ->
      EmbedChunks env chunks w = (Ok vs, w')
      /\ length vs = length chunks)
  /\ (forall (pre : list gostring) (c : gostring) (post : list gostring)
             (vs : list (list float32)) (w1 w2 : World) (e : error),
         chunks = pre ++ c :: post ->
         embeds env pre w vs w1 ->
         getOllamaEmbedding env c w1 = (Err e, w2) ->
         EmbedChunks env chunks w
         = (Err (str "failed embedding chunk " ++ itoa (length pre)
                 ++ str ": " ++ e), w2)).
Proof.
  intros Hne.
  destruct (EmbedChunks_batch_ends env chunks w Hne) as [Hok Hfail].
  split.
  - intros vs w' Hall. split; [apply Hok, Hall|].
    eapply embeds_length; eauto.
  - exact Hfail.
Qed.

Lemma C4_EmbedChunks_batch_witness :
  fst (EmbedChunks blank_scan_env [str "one"; str "two"] world0)
  = Ok [repeat 0%Z 768; repeat 0%Z 768]
  /\ fst (EmbedChunks blank_scan_env
                      [str "one"; str "short text"; str "three"] world0)
     = Err (str "failed embedding chunk 1: expected embedding dim 768, got 3").
Proof.
  split.
  - destruct (C4_EmbedChunks_batch blank_scan_env [str "one"; str "two"]
                                   world0 ltac:(discriminate)) as [Hok _].
    edestruct Hok as [Hrun _].
    { eapply embeds_cons; [reflexivity|].
      eapply embeds_cons; [reflexivity|]. apply embeds_nil. }
    rewrite Hrun. reflexivity.
  - destruct (C4_EmbedChunks_batch blank_scan_env
                [str "one"; str "short text"; str "three"]
                world0 ltac:(discriminate)) as [_ Hfail].
    erewrite (Hfail [str "one"] (str "short text") [str "three"]).
    + reflexivity.
    + reflexivity.
    + eapply embeds_cons; [reflexivity|]. apply embeds_nil.
    + reflexivity.
Defined.

Lemma EmbedChunks_Ok_inv (env : Env) (chunks : list gostring) (w w' : World)
      (vs : list (list float32)) :
  EmbedChunks env chunks w = (Ok vs, w') -> embeds env chunks w vs w'.
Proof.
  intros Hrun.
  destruct chunks as [|c cs]; [discriminate|].
  destruct (EmbedChunks_batch_ends env (c :: cs) w ltac:(discriminate))
    as [Hok Hfail].
  destruct (embeds_or_fails env (c :: cs) w)
    as [(vs0 & w0 & Hall)
       |(pre & c' & post & vs0 & w1 & e & w2 & Heq & Hpre & Herr)].
  - rewrite (Hok _ _ Hall) in Hrun. injection Hrun as -> ->. exact Hall.
  - rewrite (Hfail _ _ _ _ _ _ _ Heq Hpre Herr) in Hrun. discriminate.
Qed.

Lemma getOllamaEmbedding_wrong_dimension (env : Env) (text : gostring)
      (w : World) (resp : HttpResponse) (v : list float32) :
  http_do env w ollamaURL
          {| Model := str "nomic-embed-text"; Prompt := text |} = Ok resp ->
  StatusCode resp = 200%Z ->
  json_decode_embedding env (Body resp) = Ok v ->
  length v <> EmbeddingDim ->
  getOllamaEmbedding env text w
  = (Err (str "expected embedding dim 768, got " ++ itoa (length v)),
     {| trace := trace w
                 ++ [EvHttpPost ollamaURL
                       {| Model := str "nomic-embed-text"; Prompt := text |}];
        files := files w |}).
Proof.
  intros Hpost Hst Hdec Hdim.
  unfold getOllamaEmbedding, bind, call, ret.
  rewrite Hpost, Hst, Hdec. cbn [Z.eqb Pos.eqb negb].
  destruct (Nat.eqb_spec (length v) EmbeddingDim) as [Heq|_];
    [contradiction|]. reflexivity.
Qed.

(** C5. A backend answer that decodes to a vector of any length other than
    768 makes the embedding call fail, on the query path and on the batch
    path alike (there with the position of the item).  Conversely a vector
    that either path returns has 768 components and is the very vector the
    backend's answer decoded to: nothing is cut or filled. *)
Theorem C5_dimension_enforced (env : Env) :
  (forall (text : gostring) (w : World) (resp : HttpResponse)
          (v : list float32),
      http_do env w ollamaURL
              {| Model := str "nomic-embed-text"; Prompt := text |} = Ok resp ->
      StatusCode resp = 200%Z ->
      json_decode_embedding env (Body resp) = Ok v ->
      length v <> EmbeddingDim ->
      (text <> [] ->
       fst (QueryEmbedding env text w)
       = Err (str "expected embedding dim 768, got " ++ itoa (length v)))
      /\ (forall (pre post : list gostring) (vs : list (list float32))
                 (w0 : World),
             embeds env pre w0 vs w ->
             fst (EmbedChunks env (pre ++ text :: post) w0)
             = Err (str "failed embedding chunk " ++ itoa (length pre)
                    ++ str ": expected embedding dim 768, got "
                    ++ itoa (length v))))
  /\ (forall (query : gostring) (w w' : World) (v : list float32),
         QueryEmbedding env query w = (Ok v, w') ->
         length v = 768
         /\ exists resp : HttpResponse,
              http_do env w ollamaURL
                      {| Model := str "nomic-embed-text"; Prompt := query |}
              = Ok resp
              /\ json_decode_embedding env (Body resp) = Ok v)
  /\ (forall (chunks : list gostring) (w w' : World)
             (vs : list (list float32)),
         EmbedChunks env chunks w = (Ok vs, w') ->
         Forall (fun v => length v = 768) vs
         /\ embeds env chunks w vs w').
Proof.
  split; [|split].
  - intros text w resp v Hpost Hst Hdec Hdim.
    pose proof (getOllamaEmbedding_wrong_dimension env text w resp v
                  Hpost Hst Hdec Hdim) as Hrej.
    split.
    + intros Hne. unfold QueryEmbedding.
      destruct text; [congruence|]. cbn [is_empty]. rewrite Hrej. reflexivity.
    + intros pre post vs w0 Hpre.
      destruct (EmbedChunks_batch_ends env (pre ++ text :: post) w0)
        as [_ Hfail]; [destruct pre; discriminate|].
      rewrite (Hfail _ _ _ _ _ _ _ eq_refl Hpre Hrej). reflexivity.
  - intros query w w' v Hrun. unfold QueryEmbedding in Hrun.
    destruct (is_empty query); [discriminate|].
    destruct (getOllamaEmbedding_Ok_inv _ _ _ _ _ Hrun)
      as (resp & Hpost & _ & Hdec & Hdim).
    split; [exact Hdim|]. exists resp. auto.
  - intros chunks w w' vs Hrun.
    pose proof (EmbedChunks_Ok_inv env chunks w w' vs Hrun) as Hall.
    split; [|exact Hall].
    exact (embeds_dimension env chunks w w' vs Hall).
Qed.

Lemma C5_dimension_enforced_witness :
  fst (QueryEmbedding blank_scan_env (str "short query") world0)
  = Err (str "expected embedding dim 768, got 3")
  /\ fst (EmbedChunks blank_scan_env [str "one"; str "short chunk"] world0)
     = Err (str "failed embedding chunk 1: expected embedding dim 768, got 3")
  /\ length (repeat 0%Z 768) = 768.
Proof.
  destruct (C5_dimension_enforced blank_scan_env) as (Hrej & Hquery & _).
  split; [|split].
  - destruct (Hrej (str "short query") world0
                   {| StatusCode := 200; Body := str "short query" |}
                   (repeat 0%Z 3) eq_refl eq_refl eq_refl
                   ltac:(discriminate)) as [Hq _].
    rewrite Hq; [reflexivity|discriminate].
  - destruct (Hrej (str "short chunk")
                   (snd (getOllamaEmbedding blank_scan_env (str "one") world0))
                   {| StatusCode := 200; Body := str "short chunk" |}
                   (repeat 0%Z 3) eq_refl eq_refl eq_refl
                   ltac:(discriminate)) as [_ Hb].
    apply (Hb [str "one"] [] [repeat 0%Z 768] world0).
    eapply embeds_cons; [reflexivity|]. apply embeds_nil.
  - destruct (Hquery (str "a query") world0
                     (snd (QueryEmbedding blank_scan_env (str "a query") world0))
                     (repeat 0%Z 768) eq_refl) as [Hdim _].
    exact Hdim.
Defined.

(* ================================================================== *)
(** ** The ingestion loop *)
(* ================================================================== *)

(** C10. An empty batch is an error, not an empty result, and it costs no
    backend call.  So a file whose text yields no chunk ends its iteration
    of the ingestion loop at the embedding step: the loop logs the embed
    error and moves on, with no request and no insert made for the file. *)
Theorem C10_no_chunks_is_an_error (env : Env) :
  (forall w : World, EmbedChunks env [] w = (Err (str "no chunks"), w))
  /\ (forall (f text : gostring) (w w1 : World),
         ExtractText env f (snd (log_Println [str "Indexing:"; f] w))
         = (Ok text, w1) ->
         ChunkText text = Returns [] ->
         index_file env f w
         = (Returns tt,
            {| trace := trace w1 ++ [EvLog (str "embed error: no chunks")];
               files := files w1 |})).
Proof.
  split; [reflexivity|].
  intros f text w w1 Hext Hchunks.
  unfold index_file, bind.
  destruct (log_Println [str "Indexing:"; f] w) as [[] w0] eqn:Hlog.
  cbn [snd] in Hext. rewrite Hext, Hchunks. reflexivity.
Qed.

Lemma C10_no_chunks_is_an_error_witness :
  ChunkText (str "   ") = Returns []
  /\ trace (snd (index_file blank_scan_env notes_txt world0))
     = [EvLog (str "Indexing: docs/notes.txt"); EvReadFile notes_txt;
        EvLog (str "embed error: no chunks")].
Proof.
  assert (Hblank : ChunkText (str "   ") = Returns [])
    by (apply ChunkText_blank; reflexivity).
  split; [exact Hblank|].
  destruct (C10_no_chunks_is_an_error blank_scan_env) as [_ Hdrop].
  rewrite (Hdrop notes_txt (str "   ") world0
                 (snd (ExtractText blank_scan_env notes_txt
                         (snd (log_Println [str "Indexing:"; notes_txt]
                                           world0))))
                 eq_refl Hblank).
  reflexivity.
Defined.

(* ================================================================== *)
(** ** Extraction and the optical fallback *)
(* ================================================================== *)

Lemma runTesseract_world (env : Env) (m : gostring) (w : World) :
  snd (runTesseract env m w)
  = {| trace := trace w ++ [EvTesseract m]; files := files w |}.
Proof.
  unfold runTesseract, bind, call, ret.
  destruct (tesseract_SetImage env w m); [reflexivity|].
  destruct (tesseract_Text env w m); reflexivity.
Qed.

(** Recognition visits every page image, whatever the earlier pages gave;
    it adds one recognition call per page to the trace and creates or
    removes no file. *)
Lemma recognised_total (env : Env) (ms : list gostring) :
  forall w : World,
  exists (rs : list (result gostring)) (w' : World),
    recognised env ms w rs w'
    /\ length rs = length ms
    /\ trace w' = trace w ++ map EvTesseract ms
    /\ files w' = files w.
Proof.
  induction ms as [|m ms IH]; intros w.
  - exists [], w. repeat split; [constructor|]. simpl. rewrite app_nil_r.
    reflexivity.
  - destruct (runTesseract env m w) as [r w1] eqn:Hm.
    pose proof (runTesseract_world env m w) as Hw1. rewrite Hm in Hw1.
    cbn [snd] in Hw1.
    destruct (IH w1) as (rs & w' & Hrs & Hlen & Htr & Hfs).
    exists (r :: rs), w'. split; [econstructor; eauto|].
    split; [simpl; lia|]. subst w1. cbn [trace files] in Htr, Hfs.
    split; [|exact Hfs]. rewrite Htr, <- app_assoc. reflexivity.
Qed.

Lemma recognised_world (env : Env) (ms : list gostring) (w w' : World)
      (rs : list (result gostring)) :
  recognised env ms w rs w' ->
  length rs = length ms
  /\ trace w' = trace w ++ map EvTesseract ms
  /\ files w' = files w.
Proof.
  induction 1 as [w|m ms w w1 w2 r rs Hm _ IH].
  - simpl. rewrite app_nil_r. auto.
  - destruct IH as (Hlen & Htr & Hfs).
    pose proof (runTesseract_world env m w) as Hw1. rewrite Hm in Hw1.
    cbn [snd] in Hw1. subst w1. cbn [trace files] in Htr, Hfs.
    split; [simpl; lia|]. split; [|exact Hfs].
    rewrite Htr, <- app_assoc. reflexivity.
Qed.

(** The page loop appends the text of every recognised page, each followed
    by a newline, and nothing for a page whose recognition failed. *)
Lemma OCR_pages_recognised (env : Env) (ms : list gostring) (w w' : World)
      (rs : list (result gostring)) :
  recognised env ms w rs w' ->
  forall combined : gostring,
    OCR_pages env ms combined w = (combined ++ concat (map page_text rs), w').
Proof.
  induction 1 as [w|m ms w w1 w2 r rs Hm _ IH]; intros combined;
    cbn [OCR_pages map concat].
  - unfold ret. rewrite app_nil_r. reflexivity.
  - unfold bind. rewrite Hm. destruct r as [t|e]; rewrite IH; cbn [page_text].
    + rewrite <- !app_assoc. reflexivity.
    + reflexivity.
Qed.

Lemma ExtractTextWithOCR_pdf (env : Env) (path : gostring) (w w2 : World)
      (written matches : list gostring) (rs : list (result gostring)) :
  ToLower (Ext path) = str ".pdf" ->
  pdftoppm env w path (tmpPrefix env) = (written, None) ->
  Glob env (after_pdftoppm env path w written) (tmpPrefix env ++ str "-*.png")
  = Ok matches ->
  recognised env matches (after_glob env path w written) rs w2 ->
  ExtractTextWithOCR env path w
  = (Ok (TrimSpace (concat (map page_text rs))), w2).
Proof.
  intros Hext Hconv Hglob Hrs.
  unfold ExtractTextWithOCR. rewrite Hext.
  change (gostring_eqb (str ".pdf") (str ".pdf")) with true.
  unfold bind, call, write_files, ret. cbn [trace files].
  rewrite Hconv. cbn [fst snd trace files].
  unfold after_pdftoppm in Hglob. rewrite Hglob.
  pose proof (OCR_pages_recognised env matches _ w2 rs Hrs []) as Hpages.
  unfold after_glob in Hpages. rewrite Hpages. reflexivity.
Qed.

Lemma pdftoppm_runs_app (a b : list event) :
  pdftoppm_runs (a ++ b) = pdftoppm_runs a + pdftoppm_runs b.
Proof.
  unfold pdftoppm_runs. rewrite filter_app, length_app. reflexivity.
Qed.

Lemma pdftoppm_runs_tesseract (ms : list gostring) :
  pdftoppm_runs (map EvTesseract ms) = 0.
Proof.
  induction ms as [|m ms IH]; [reflexivity|exact IH].
Qed.

Lemma pdftoppm_runs_other (tr : list event) (e : event) :
  is_pdftoppm e = false -> pdftoppm_runs (tr ++ [e]) = pdftoppm_runs tr.
Proof.
  intros He. rewrite pdftoppm_runs_app. unfold pdftoppm_runs at 2.
  cbn [filter]. rewrite He. cbn [length]. lia.
Qed.

Lemma pdftoppm_runs_one (tr : list event) (path prefix : gostring) :
  pdftoppm_runs (tr ++ [EvPdftoppm path prefix]) = pdftoppm_runs tr + 1.
Proof.
  rewrite pdftoppm_runs_app. reflexivity.
Qed.

(** The text-layer attempt never runs the page conversion. *)
Lemma ExtractTextFromPDF_no_pdftoppm (env : Env) (path : gostring) (w : World) :
  pdftoppm_runs (trace (snd (ExtractTextFromPDF env path w)))
  = pdftoppm_runs (trace w).
Proof.
  unfold ExtractTextFromPDF, bind, call, ret.
  destruct (pdf_text_layer env w path) as [buf|e]; cbn [snd trace].
  - destruct (is_empty (TrimSpace buf)); cbn [snd trace].
    + destruct (pdftotext env _ path); cbn [snd trace];
        rewrite !pdftoppm_runs_other by reflexivity; reflexivity.
    + apply pdftoppm_runs_other. reflexivity.
  - apply pdftoppm_runs_other. reflexivity.
Qed.

(** One run of the optical fallback on a PDF runs the page conversion
    exactly once, however the conversion, the listing and the pages turn
    out. *)
Lemma ExtractTextWithOCR_pdftoppm_once (env : Env) (path : gostring)
      (w : World) :
  ToLower (Ext path) = str ".pdf" ->
  pdftoppm_runs (trace (snd (ExtractTextWithOCR env path w)))
  = pdftoppm_runs (trace w) + 1.
Proof.
  intros Hext.
  destruct (pdftoppm env w path (tmpPrefix env)) as [written failure] eqn:Hconv.
  destruct failure as [e|].
  - unfold ExtractTextWithOCR. rewrite Hext.
    change (gostring_eqb (str ".pdf") (str ".pdf")) with true.
    unfold bind, call, write_files, ret. rewrite Hconv. cbn [fst snd trace].
    apply pdftoppm_runs_one.
  - destruct (Glob env (after_pdftoppm env path w written)
                   (tmpPrefix env ++ str "-*.png")) as [matches|e] eqn:Hglob.
    + destruct (recognised_total env matches (after_glob env path w written))
        as (rs & w2 & Hrs & _ & Htr & _).
      rewrite (ExtractTextWithOCR_pdf env path w w2 written matches rs
                 Hext Hconv Hglob Hrs).
      cbn [snd]. rewrite Htr. unfold after_glob. cbn [trace].
      rewrite pdftoppm_runs_app, pdftoppm_runs_tesseract, Nat.add_0_r.
      rewrite pdftoppm_runs_other by reflexivity. apply pdftoppm_runs_one.
    + unfold ExtractTextWithOCR. rewrite Hext.
      change (gostring_eqb (str ".pdf") (str ".pdf")) with true.
      unfold bind, call, write_files, ret. rewrite Hconv.
      cbn [fst snd trace files]. unfold after_pdftoppm in Hglob.
      rewrite Hglob. cbn [snd trace].
      rewrite pdftoppm_runs_other by reflexivity. apply pdftoppm_runs_one.
Qed.

Lemma ExtractText_pdf_fallback (env : Env) (path : gostring) (w w1 : World)
      (r1 : result gostring) :
  ToLower (Ext path) = str ".pdf" ->
  ExtractTextFromPDF env path w = (r1, w1) ->
  (forall text, r1 = Ok text -> TrimSpace text = []) ->
  ExtractText env path w = ExtractTextWithOCR env path w1.
Proof.
  intros Hext Hlayer Hblank.
  unfold ExtractText. rewrite Hext.
  change (ext_in (str ".pdf") [".txt"; ".md"]%string) with false.
  change (ext_in (str ".pdf") [".pdf"]%string) with true.
  cbv iota. unfold bind. rewrite Hlayer.
  destruct r1 as [text|e]; [|reflexivity].
  rewrite (Hblank text eq_refl). reflexivity.
Qed.

(** C2. For a [.pdf] whose text-layer attempt fails or gives only white
    space, [ExtractText] is one run of the optical fallback from the world
    the attempt left, and that run converts the pages exactly once.  When
    the fallback's conversion and listing succeed but recognition yields no
    text either, [ExtractText] returns the empty text with a nil error; the
    ingestion loop then drops the file at the embedding step, logging the
    embed error "no chunks", with no insert. *)
Theorem C2_pdf_fallback_once (env : Env) (path : gostring) (w w1 : World)
        (r1 : result gostring) :
  ToLower (Ext path) = str ".pdf" ->
  ExtractTextFromPDF env path w = (r1, w1) ->
  (forall text, r1 = Ok text -> TrimSpace text = []) ->
  ExtractText env path w = ExtractTextWithOCR env path w1
  /\ pdftoppm_runs (trace (snd (ExtractText env path w)))
     = pdftoppm_runs (trace w) + 1
  /\ (forall (written matches : list gostring) (rs : list (result gostring))
             (w2 : World),
         pdftoppm env w1 path (tmpPrefix env) = (written, None) ->
         Glob env (after_pdftoppm env path w1 written)
              (tmpPrefix env ++ str "-*.png") = Ok matches ->
         recognised env matches (after_glob env path w1 written) rs w2 ->
         TrimSpace (concat (map page_text rs)) = [] ->
         ExtractText env path w = (Ok [], w2)
         /\ forall w0 : World,
              snd (log_Println [str "Indexing:"; path] w0) = w ->
              index_file env path w0
              = (Returns tt,
                 {| trace := trace w2
                             ++ [EvLog (str "embed error: no chunks")];
                    files := files w2 |})).
Proof.
  intros Hext Hlayer Hblank.
  pose proof (ExtractText_pdf_fallback env path w w1 r1 Hext Hlayer Hblank)
    as Hfall.
  split; [exact Hfall|]. split.
  - rewrite Hfall, (ExtractTextWithOCR_pdftoppm_once env path w1 Hext).
    pose proof (ExtractTextFromPDF_no_pdftoppm env path w) as Hsame.
    rewrite Hlayer in Hsame. cbn [snd] in Hsame. lia.
  - intros written matches rs w2 Hconv Hglob Hrs Hnone.
    assert (Hrun : ExtractText env path w = (Ok [], w2)).
    { rewrite Hfall,
        (ExtractTextWithOCR_pdf env path w1 w2 written matches rs
           Hext Hconv Hglob Hrs), Hnone. reflexivity. }
    split; [exact Hrun|].
    intros w0 Hw0. unfold index_file, bind.
    destruct (log_Println [str "Indexing:"; path] w0) as [[] w'] eqn:Hlog.
    cbn [snd] in Hw0. subst w'. rewrite Hrun. reflexivity.
Qed.

Lemma C2_pdf_fallback_once_witness :
  ToLower (Ext scan_pdf) = str ".pdf"
  /\ ExtractText blank_scan_env scan_pdf world0
     = ExtractTextWithOCR blank_scan_env scan_pdf
         (snd (ExtractTextFromPDF blank_scan_env scan_pdf world0))
  /\ pdftoppm_runs (trace (snd (ExtractText blank_scan_env scan_pdf world0)))
     = 1.
Proof.
  assert (Hext : ToLower (Ext scan_pdf) = str ".pdf") by reflexivity.
  split; [exact Hext|].
  destruct (C2_pdf_fallback_once blank_scan_env scan_pdf world0
              (snd (ExtractTextFromPDF blank_scan_env scan_pdf world0))
              (Ok []) Hext eq_refl) as (Hfall & Honce & _).
  - intros text Htext. injection Htext as <-. reflexivity.
  - split; [exact Hfall|exact Honce].
Defined.

(** Counterexample to C2 as the design document words it: a two-page scan
    with no text layer on which recognition finds nothing is not an
    extraction failure.  [ExtractText]
    returns the empty text with a nil error, and the loop does not log
    "skip file" for it; the file is lost one step later, to the embed
    error. *)
Lemma C2_blank_scan_is_not_an_extraction_failure :
  pdf_text_layer blank_scan_env world0 scan_pdf = Ok (str "  ")
  /\ fst (ExtractTextWithOCR blank_scan_env scan_pdf world0) = Ok []
  /\ fst (ExtractText blank_scan_env scan_pdf world0) = Ok []
  /\ (forall e : error,
         fst (ExtractText blank_scan_env scan_pdf world0) <> Err e)
  /\ trace (snd (index_file blank_scan_env scan_pdf world0))
     = [EvLog (str "Indexing: docs/scan.PDF");
        EvPdfTextLayer scan_pdf;
        EvPdftotext scan_pdf;
        EvPdftoppm scan_pdf (str "/tmp/uda_pdfimg");
        EvGlob (str "/tmp/uda_pdfimg-*.png");
        EvTesseract (str "/tmp/uda_pdfimg-1.png");
        EvTesseract (str "/tmp/uda_pdfimg-2.png");
        EvLog (str "embed error: no chunks")].
Proof.
  split; [reflexivity|]. split; [reflexivity|]. split; [reflexivity|].
  split; [intros e; vm_compute; discriminate|].
  vm_compute. reflexivity.
Qed.

(** C9. When the page conversion and the listing of the page images
    succeed, the optical fallback runs recognition on every listed page in
    order, a failed page contributing nothing and stopping nothing, and
    returns the trimmed concatenation of the recognised pages' texts, each
    followed by a newline.  It removes no file: the files on disk when it
    returns are those present before plus every image the conversion
    wrote. *)
Theorem C9_fallback_pages_and_files (env : Env) (path : gostring) (w : World)
        (written matches : list gostring) :
  ToLower (Ext path) = str ".pdf" ->
  pdftoppm env w path (tmpPrefix env) = (written, None) ->
  Glob env (after_pdftoppm env path w written) (tmpPrefix env ++ str "-*.png")
  = Ok matches ->
  exists (rs : list (result gostring)) (w2 : World),
    recognised env matches (after_glob env path w written) rs w2
    /\ length rs = length matches
    /\ ExtractTextWithOCR env path w
       = (Ok (TrimSpace (concat (map page_text rs))), w2)
    /\ trace w2
       = trace (after_glob env path w written) ++ map EvTesseract matches
    /\ files w2 = files w ++ written
    /\ (forall f : gostring, In f written -> In f (files w2)).
Proof.
  intros Hext Hconv Hglob.
  destruct (recognised_total env matches (after_glob env path w written))
    as (rs & w2 & Hrs & Hlen & Htr & Hfs).
  exists rs, w2.
  split; [exact Hrs|]. split; [exact Hlen|].
  split; [exact (ExtractTextWithOCR_pdf env path w w2 written matches rs
                   Hext Hconv Hglob Hrs)|].
  split; [exact Htr|].
  split; [exact Hfs|].
  intros f Hf. rewrite Hfs. cbn [after_glob files].
  apply in_or_app. right. exact Hf.
Qed.

Lemma C9_fallback_pages_and_files_witness :
  exists (rs : list (result gostring)) (w2 : World),
    ExtractTextWithOCR partial_scan_env scan_pdf world0
    = (Ok (TrimSpace (concat (map page_text rs))), w2)
    /\ length rs = 2
    /\ files w2 = [str "/tmp/uda_pdfimg-1.png"; str "/tmp/uda_pdfimg-2.png"].
Proof.
  destruct (C9_fallback_pages_and_files partial_scan_env scan_pdf world0
              [str "/tmp/uda_pdfimg-1.png"; str "/tmp/uda_pdfimg-2.png"]
              [str "/tmp/uda_pdfimg-1.png"; str "/tmp/uda_pdfimg-2.png"]
              eq_refl eq_refl eq_refl)
    as (rs & w2 & _ & Hlen & Hrun & _ & Hfs & _).
  exists rs, w2. split; [exact Hrun|]. split; [exact Hlen|exact Hfs].
Defined.

(** Counterexample to C9 as the design document words it: after the
    fallback has returned, with the text of the one page it could read, both
    page images written by the conversion are still on disk. *)
Lemma C9_page_images_are_left_behind :
  fst (pdftoppm partial_scan_env world0 scan_pdf (str "/tmp/uda_pdfimg"))
  = [str "/tmp/uda_pdfimg-1.png"; str "/tmp/uda_pdfimg-2.png"]
  /\ fst (ExtractTextWithOCR partial_scan_env scan_pdf world0)
     = Ok (str "page two")
  /\ files (snd (ExtractTextWithOCR partial_scan_env scan_pdf world0))
     = [str "/tmp/uda_pdfimg-1.png"; str "/tmp/uda_pdfimg-2.png"]
  /\ In (str "/tmp/uda_pdfimg-1.png")
        (files (snd (ExtractTextWithOCR partial_scan_env scan_pdf world0))).
Proof.
  split; [reflexivity|]. split; [vm_compute; reflexivity|].
  split; [vm_compute; reflexivity|].
  vm_compute. left. reflexivity.
Qed.

(* ================================================================== *)
(** ** Further properties of the chunker *)
(* ================================================================== *)

(** X1. A document made of ASCII white space only (spaces, tabs, newlines, ...),
    the empty document included, has no paragraph that survives trimming
    and yields zero chunks. *)
Theorem ChunkText_blank_document (text : gostring) :
  forallb asciiSpace text = true ->
  Forall (fun p => TrimSpace p = []) (Split text)
  /\ ChunkText text = Returns [].
Proof.
  intros Hblank.
  pose proof (Split_forallb asciiSpace text Hblank) as Hparas.
  split.
  - eapply Forall_impl; [|exact Hparas].
    intros p Hp. apply TrimSpace_blank, Hp.
  - unfold ChunkText. apply ChunkText_loop_blank, Hparas.
Qed.

Lemma ChunkText_blank_document_witness :
  forallb asciiSpace (spaces 3 ++ newlines 4 ++ spaces 2) = true
  /\ ChunkText (spaces 3 ++ newlines 4 ++ spaces 2) = Returns [].
Proof.
  split; [reflexivity|].
  apply (ChunkText_blank_document (spaces 3 ++ newlines 4 ++ spaces 2)).
  reflexivity.
Defined.

Lemma slice_length_le (s : gostring) (i j : nat) :
  length (slice s i j) <= j - i.
Proof.
  unfold slice. rewrite length_firstn. lia.
Qed.

(** No window and no short paragraph handed back by [splitLong] is longer
    than [max]. *)
Lemma splitLong_bounded (s : gostring) (max overlap : Z)
      (ws : list gostring) :
  (0 <= overlap < max)%Z ->
  (len s + max < 2 ^ 63)%Z ->
  splitLong s max overlap = Returns ws ->
  Forall (fun c => (len c <= max)%Z) ws.
Proof.
  intros Hov Hbig Hrun.
  destruct (Z.leb_spec (len s) max) as [Hshort|Hlong].
  - unfold splitLong in Hrun.
    replace (len s <=? max)%Z with true in Hrun
      by (symmetry; apply Z.leb_le; lia).
    injection Hrun as <-. constructor; [exact Hshort|constructor].
  - rewrite (splitLong_long s max overlap Hov Hlong Hbig) in Hrun.
    remember (seq 0 (S (Z.to_nat (ceil_div (len s - max) (max - overlap)))))
      as ks eqn:Hks in Hrun. clear Hks.
    injection Hrun as <-. apply Forall_forall. intros c Hc.
    apply in_map_iff in Hc as (k & <- & _).
    pose proof (TrimSpace_length (window_text s max overlap k)) as Ht.
    pose proof (slice_length_le s (Z.to_nat (window_start max overlap k))
                  (Z.to_nat (window_end s max overlap k))) as Hs.
    fold (window_text s max overlap k) in Hs.
    assert (Hk : (0 <= window_start max overlap k)%Z)
      by (unfold window_start; nia).
    unfold window_end in Hs. unfold len in *. lia.
Qed.

Lemma ChunkText_loop_bounded (paras : list gostring) :
  Forall (fun p => (len p + 1000 < 2 ^ 63)%Z) paras ->
  forall out chunks : list gostring,
    Forall (fun c => (len c <= 1000)%Z) out ->
    ChunkText_loop paras out = Returns chunks ->
    Forall (fun c => (len c <= 1000)%Z) chunks.
Proof.
  induction 1 as [|p rest Hp _ IH]; intros out chunks Hout Hrun;
    cbn [ChunkText_loop] in Hrun.
  - injection Hrun as <-. exact Hout.
  - destruct (is_empty (TrimSpace p)); [eapply IH; eauto|].
    destruct (splitLong (TrimSpace p) 1000 200) as [ws| |] eqn:Hws;
      try discriminate.
    eapply IH; [|exact Hrun]. apply Forall_app. split; [exact Hout|].
    apply (splitLong_bounded (TrimSpace p) 1000 200 ws); [lia| |exact Hws].
    pose proof (TrimSpace_length p). unfold len in *. lia.
Qed.

(** X2. Whatever the text, chunking ends without a slice out of range and no
    chunk is longer than 1000 bytes. *)
Theorem ChunkText_chunks_bounded (text : gostring) :
  (len text + 1000 < 2 ^ 63)%Z ->
  exists chunks : list gostring,
    ChunkText text = Returns chunks
    /\ Forall (fun c => (len c <= 1000)%Z) chunks.
Proof.
  intros Hbig.
  destruct (ChunkText_returns text Hbig) as [chunks Hrun].
  exists chunks. split; [exact Hrun|].
  unfold ChunkText in Hrun.
  eapply ChunkText_loop_bounded; [|constructor|exact Hrun].
  eapply Forall_impl; [|apply Split_lengths].
  cbv beta. intros p Hp. unfold len in *. lia.
Qed.

Lemma ChunkText_chunks_bounded_witness :
  (len sparse_paragraph + 1000 < 2 ^ 63)%Z
  /\ exists chunks : list gostring,
       ChunkText sparse_paragraph = Returns chunks
       /\ Forall (fun c => (len c <= 1000)%Z) chunks.
Proof.
  assert (H : (len sparse_paragraph + 1000 < 2 ^ 63)%Z)
    by (vm_compute; reflexivity).
  split; [exact H|]. exact (ChunkText_chunks_bounded sparse_paragraph H).
Defined.

Lemma ChunkText_loop_short (paras : list gostring) :
  Forall (fun p => (len (TrimSpace p) <= 1000)%Z) paras ->
  forall out : list gostring,
    ChunkText_loop paras out
    = Returns (out ++ filter (fun p => negb (is_empty p))
                             (map TrimSpace paras)).
Proof.
  induction 1 as [|p rest Hp _ IH]; intros out;
    cbn [ChunkText_loop map filter].
  - rewrite app_nil_r. reflexivity.
  - destruct (is_empty (TrimSpace p)) eqn:He; cbn [negb]; [apply IH|].
    unfold splitLong.
    replace (len (TrimSpace p) <=? 1000)%Z with true
      by (symmetry; apply Z.leb_le; exact Hp).
    rewrite IH, <- app_assoc. reflexivity.
Qed.

(** X3. When every paragraph, once trimmed, fits in 1000 bytes, the chunks are
    exactly the trimmed paragraphs that are not empty, in document order;
    in particular no chunk is the empty string. *)
Theorem ChunkText_short_paragraphs (text : gostring) :
  Forall (fun p => (len (TrimSpace p) <= 1000)%Z) (Split text) ->
  ChunkText text
  = Returns (filter (fun p => negb (is_empty p)) (map TrimSpace (Split text)))
  /\ Forall (fun c => c <> [])
            (filter (fun p => negb (is_empty p)) (map TrimSpace (Split text))).
Proof.
  intros Hshort. split.
  - unfold ChunkText. rewrite (ChunkText_loop_short (Split text) Hshort []).
    reflexivity.
  - apply Forall_forall. intros c Hc.
    apply filter_In in Hc as [_ Hne]. destruct c; [discriminate|congruence].
Qed.

Lemma ChunkText_short_paragraphs_witness :
  ChunkText (str " one " ++ newlines 2 ++ spaces 2 ++ newlines 3 ++ str "two")
  = Returns [str "one"; str "two"].
Proof.
  apply (ChunkText_short_paragraphs
           (str " one " ++ newlines 2 ++ spaces 2 ++ newlines 3 ++ str "two")).
  repeat constructor; vm_compute; discriminate.
Defined.

Lemma newline_run_single (c : ascii) (t : gostring) :
  has_double_newline (c :: t) = false -> newline_run (c :: t) <= 1.
Proof.
  cbn [has_double_newline newline_run].
  destruct (is_newline c); [|lia].
  destruct t as [|c' t']; [simpl; lia|].
  cbn [andb orb newline_run]. destruct (is_newline c'); [discriminate|lia].
Qed.

Lemma has_double_newline_tail (c : ascii) (t : gostring) :
  has_double_newline (c :: t) = false -> has_double_newline t = false.
Proof.
  cbn [has_double_newline]. destruct t as [|c' t']; [reflexivity|].
  intros H. apply orb_false_iff in H as [_ H]. exact H.
Qed.

(** Without two adjacent newlines the pattern has no match. *)
Lemma FindAllStringIndex_none (fuel : nat) :
  forall (s : gostring) (pos : nat),
    has_double_newline s = false -> FindAllStringIndex fuel s pos = [].
Proof.
  induction fuel as [|fuel IH]; intros s pos Hs; [reflexivity|].
  destruct s as [|c t]; [reflexivity|].
  cbn [FindAllStringIndex].
  pose proof (newline_run_single c t Hs) as Hrun.
  replace (2 <=? newline_run (c :: t)) with false
    by (symmetry; apply Nat.leb_gt; lia).
  apply IH. exact (has_double_newline_tail c t Hs).
Qed.

Lemma Split_single (text : gostring) :
  has_double_newline text = false -> Split text = [text].
Proof.
  intros Hs. unfold Split.
  destruct text as [|c t]; [reflexivity|].
  cbn [length Nat.eqb].
  rewrite (FindAllStringIndex_none (S (length t)) (c :: t) 0 Hs).
  cbn [Split_loop Nat.eqb app]. unfold slice. rewrite Nat.sub_0_r.
  cbn [skipn]. change (S (length t)) with (length (c :: t)).
  rewrite firstn_all. reflexivity.
Qed.

(** X4. A text with no blank line between its lines whose trimmed form fits in
    1000 bytes is one chunk, the trimmed text itself; it is no chunk at all
    when the trimmed text is empty. *)
Theorem ChunkText_single_paragraph (text : gostring) :
  has_double_newline text = false ->
  (len (TrimSpace text) <= 1000)%Z ->
  ChunkText text
  = Returns (if is_empty (TrimSpace text) then [] else [TrimSpace text]).
Proof.
  intros Hnl Hshort.
  assert (Hsplit : Split text = [text]) by (apply Split_single, Hnl).
  unfold ChunkText. rewrite Hsplit.
  rewrite (ChunkText_loop_short [text]);
    [|constructor; [exact Hshort|constructor]].
  cbn [map filter app].
  destruct (is_empty (TrimSpace text)); reflexivity.
Qed.

Lemma ChunkText_single_paragraph_witness :
  ChunkText (str "  first line" ++ newlines 1 ++ str "second line ")
  = Returns [str "first line" ++ newlines 1 ++ str "second line"].
Proof.
  apply (ChunkText_single_paragraph
           (str "  first line" ++ newlines 1 ++ str "second line ")).
  - reflexivity.
  - vm_compute. discriminate.
Defined.

Lemma splitLong_loop_no_progress (s : gostring) (max : Z) :
  (0 <= max < len s)%Z ->
  (len s + max < 2 ^ 63)%Z ->
  forall (fuel : nat) (res : list gostring),
    splitLong_loop fuel s max max 0 res = OutOfFuel.
Proof.
  intros Hmax Hbig. induction fuel as [|fuel IH]; intros res; [reflexivity|].
  cbn [splitLong_loop].
  replace (0 <? len s)%Z with true by (symmetry; apply Z.ltb_lt; lia).
  unfold int_add, int_sub. rewrite Z.sub_diag, (wrap_id 0) by lia.
  rewrite Z.add_0_l, Z.add_0_r, wrap_id by lia. rewrite (wrap_id 0) by lia.
  replace (max >? len s)%Z with false
    by (symmetry; destruct (Z.gtb_spec max (len s)); [lia|reflexivity]).
  unfold slice_checked.
  replace ((0 <=? 0) && (0 <=? max) && (max <=? len s))%Z with true
    by (symmetry; rewrite !andb_true_iff, !Z.leb_le; lia).
  replace (max =? len s)%Z with false by (symmetry; apply Z.eqb_neq; lia).
  apply IH.
Qed.

(** X5. [splitLong] relies on [overlap < max].  On a string longer than [max]:
    with [overlap = max] the loop variable never moves and the loop never
    ends, whatever the fuel; with [overlap > max] the loop variable turns
    negative and the second slice is out of range, a run-time panic. *)
Theorem splitLong_needs_overlap_below_max (s : gostring) (max overlap : Z) :
  (0 <= max < len s)%Z ->
  (len s + max < 2 ^ 63)%Z ->
  (overlap = max ->
   forall (fuel : nat) (res : list gostring),
     splitLong_loop fuel s max overlap 0 res = OutOfFuel)
  /\ ((max < overlap < 2 ^ 63)%Z -> splitLong s max overlap = Panics).
Proof.
  intros Hmax Hbig. split.
  - intros ->. apply splitLong_loop_no_progress; assumption.
  - intros Hov. unfold splitLong.
    replace (len s <=? max)%Z with false by (symmetry; apply Z.leb_gt; lia).
    destruct (length s) as [|n] eqn:Hn; [unfold len in Hmax; lia|].
    assert (Hlen : len s = Z.of_nat (S n)) by (unfold len; congruence).
    cbn [splitLong_loop].
    replace (0 <? len s)%Z with true by (symmetry; apply Z.ltb_lt; lia).
    unfold int_add, int_sub.
    rewrite !Z.add_0_l, (wrap_id (max - overlap)), (wrap_id max),
      (wrap_id (max - overlap)) by lia.
    replace (max >? len s)%Z with false
      by (symmetry; destruct (Z.gtb_spec max (len s)); [lia|reflexivity]).
    unfold slice_checked at 1.
    replace ((0 <=? 0) && (0 <=? max) && (max <=? len s))%Z with true
      by (symmetry; rewrite !andb_true_iff, !Z.leb_le; lia).
    replace (max =? len s)%Z with false by (symmetry; apply Z.eqb_neq; lia).
    replace (max - overlap <? len s)%Z with true
      by (symmetry; apply Z.ltb_lt; lia).
    unfold slice_checked.
    replace (0 <=? max - overlap)%Z with false
      by (symmetry; apply Z.leb_gt; lia).
    reflexivity.
Qed.

Lemma splitLong_needs_overlap_below_max_witness :
  (forall fuel : nat, splitLong_loop fuel (str "abcde") 2 2 0 [] = OutOfFuel)
  /\ splitLong (str "abcde") 2 3 = Panics.
Proof.
  destruct (splitLong_needs_overlap_below_max (str "abcde") 2 2)
    as [Hloop _]; [vm_compute; split; [discriminate|reflexivity]
                  |vm_compute; reflexivity|].
  destruct (splitLong_needs_overlap_below_max (str "abcde") 2 3)
    as [_ Hpanic]; [vm_compute; split; [discriminate|reflexivity]
                   |vm_compute; reflexivity|].
  split.
  - intros fuel. apply Hloop. reflexivity.
  - apply Hpanic. lia.
Defined.

(* ================================================================== *)
(** ** Further properties of the embedder *)
(* ================================================================== *)

(** Whatever the backend answers, one embedding call is one request, for
    the fixed model with the text as the prompt, and writes no file. *)
Lemma getOllamaEmbedding_world (env : Env) (text : gostring) (w : World) :
  snd (getOllamaEmbedding env text w)
  = {| trace := trace w ++ [embedding_request text]; files := files w |}.
Proof.
  unfold getOllamaEmbedding, bind, call, ret, embedding_request.
  destruct (http_do env w ollamaURL _) as [resp|e]; [|reflexivity].
  destruct (negb (StatusCode resp =? 200)%Z); [reflexivity|].
  destruct (json_decode_embedding env (Body resp)) as [emb|e]; [|reflexivity].
  destruct (negb (length emb =? EmbeddingDim)); reflexivity.
Qed.

Lemma embeds_world (env : Env) (chunks : list gostring) (w w' : World)
      (vs : list (list float32)) :
  embeds env chunks w vs w' ->
  trace w' = trace w ++ map embedding_request chunks
  /\ files w' = files w.
Proof.
  induction 1 as [w|c cs w w1 w2 v vs Hc _ IH].
  - simpl. rewrite app_nil_r. auto.
  - destruct IH as [Htr Hfs].
    pose proof (getOllamaEmbedding_world env c w) as Hw1.
    rewrite Hc in Hw1. cbn [snd] in Hw1. subst w1.
    cbn [trace files] in Htr, Hfs. split; [|exact Hfs].
    rewrite Htr, <- app_assoc. reflexivity.
Qed.

Lemma EmbedChunks_requests (env : Env)
        (chunks : list gostring) (w w' : World)
        (r : result (list (list float32))) :
  EmbedChunks env chunks w = (r, w') ->
  files w' = files w
  /\ match r with
     | Ok _ => trace w' = trace w ++ map embedding_request chunks
     | Err _ =>
       (chunks = [] /\ trace w' = trace w)
       \/ (exists (pre : list gostring) (c : gostring) (post : list gostring),
              chunks = pre ++ c :: post
              /\ trace w' = trace w ++ map embedding_request (pre ++ [c]))
     end.
Proof.
  intros Hrun.
  destruct chunks as [|c0 cs].
  { injection Hrun as <- <-. split; [reflexivity|]. left. auto. }
  destruct (EmbedChunks_batch_ends env (c0 :: cs) w ltac:(discriminate))
    as [Hok Hfail].
  destruct (embeds_or_fails env (c0 :: cs) w)
    as [(vs & w1 & Hall)
       |(pre & c & post & vs & w1 & e & w2 & Heq & Hpre & Herr)].
  - rewrite (Hok _ _ Hall) in Hrun. injection Hrun as <- <-.
    destruct (embeds_world env _ _ _ _ Hall) as [Htr Hfs]. auto.
  - rewrite (Hfail _ _ _ _ _ _ _ Heq Hpre Herr) in Hrun.
    injection Hrun as <- <-.
    destruct (embeds_world env _ _ _ _ Hpre) as [Htr Hfs].
    pose proof (getOllamaEmbedding_world env c w1) as Hw2.
    rewrite Herr in Hw2. cbn [snd] in Hw2. subst w2. cbn [trace files].
    split; [exact Hfs|]. right. exists pre, c, post.
    split; [exact Heq|]. rewrite Htr, map_app, <- app_assoc. reflexivity.
Qed.




(* ================================================================== *)
(** ** Further properties of the answer workflow *)
(* ================================================================== *)

Lemma run_nodes_app (pre post : list node) :
  forall (s : State) (w : World),
    run_nodes (pre ++ post) s w
    = match fst (fst (run_nodes pre s w)) with
      | Some e => run_nodes pre s w
      | None => run_nodes post (snd (fst (run_nodes pre s w)))
                          (snd (run_nodes pre s w))
      end.
Proof.
  induction pre as [|n pre IH]; intros s w; cbn [app run_nodes].
  - reflexivity.
  - unfold bind. destruct (n s w) as [[[e|] s1] w1]; cbn [fst snd].
    + reflexivity.
    + apply IH.
Qed.

(** X7. The workflow loop stops at the first stage that returns an error: the
    error and the state and world that stage left are the result, and the
    stages after it are never run, whatever they are. *)
Theorem run_nodes_stops_at_first_error (pre post : list node) (n : node)
        (s s1 s2 : State) (w w1 w2 : World) (e : error) :
  run_nodes pre s w = ((None, s1), w1) ->
  n s1 w1 = ((Some e, s2), w2) ->
  run_nodes (pre ++ n :: post) s w = ((Some e, s2), w2).
Proof.
  intros Hpre Hn. rewrite run_nodes_app, Hpre. cbn [fst snd run_nodes].
  unfold bind. rewrite Hn. reflexivity.
Qed.

Lemma run_nodes_stops_at_first_error_witness :
  run_nodes ([CriticNode] ++ RetrieverNode blank_scan_env :: [AnswerNode])
            {| Query := []; Docs := []; Ans := []; DB := no_search |} world0
  = ((Some (str "empty query"),
      {| Query := []; Docs := []; Ans := advisory_suffix; DB := no_search |}),
     world0).
Proof.
  apply (run_nodes_stops_at_first_error
           [CriticNode] [AnswerNode] (RetrieverNode blank_scan_env)
           {| Query := []; Docs := []; Ans := []; DB := no_search |}
           {| Query := []; Docs := []; Ans := advisory_suffix;
              DB := no_search |}
           {| Query := []; Docs := []; Ans := advisory_suffix;
              DB := no_search |}
           world0 world0 world0 (str "empty query")); reflexivity.
Defined.

Lemma trace_snoc3 (tr : list event) (a b c : event) :
  ((tr ++ [a]) ++ [b]) ++ [c] = tr ++ [a; b; c].
Proof. rewrite <- !app_assoc. reflexivity. Qed.

Lemma trace_snoc4 (tr : list event) (a b c d : event) :
  (((tr ++ [a]) ++ [b]) ++ [c]) ++ [d] = tr ++ [a; b; c; d].
Proof. rewrite <- !app_assoc. reflexivity. Qed.

(** X8. An empty query stops the workflow at retrieval with the error "empty
    query", before any request, search or output. *)
Theorem RunWorkflow_empty_query (env : Env) (s : State) (w : World) :
  Query s = [] ->
  RunWorkflow env s w = ((Some (str "empty query"), s), w).
Proof.
  intros Hq. unfold RunWorkflow. cbn [run_nodes]. unfold bind.
  unfold RetrieverNode at 1, QueryEmbedding, bind. rewrite Hq. reflexivity.
Qed.

Lemma RunWorkflow_empty_query_witness :
  RunWorkflow blank_scan_env
              {| Query := []; Docs := []; Ans := []; DB := no_search |} world0
  = ((Some (str "empty query"),
      {| Query := []; Docs := []; Ans := []; DB := no_search |}), world0).
Proof.
  apply (RunWorkflow_empty_query blank_scan_env
           {| Query := []; Docs := []; Ans := []; DB := no_search |} world0).
  reflexivity.
Defined.

Lemma RetrieverNode_found (env : Env) (s : State) (w w1 : World)
      (v : list float32) (docs : list gostring) :
  Query s <> [] ->
  getOllamaEmbedding env (Query s) w = (Ok v, w1) ->
  Search (DB s) w1 v 5%Z = Ok docs ->
  RetrieverNode env s w
  = ((None, set_Docs s docs),
     {| trace := trace w1 ++ [EvSearch 5]; files := files w1 |}).
Proof.
  intros Hq Hemb Hsearch. unfold RetrieverNode, QueryEmbedding, bind.
  destruct (Query s) as [|c q] eqn:Hquery; [congruence|]. cbn [is_empty].
  rewrite Hemb. unfold call. rewrite Hsearch. reflexivity.
Qed.

(** X9. A failed search stops the workflow with the search error as it is: the
    state is untouched and, after the embedding request and the search,
    nothing is requested or printed. *)
Theorem RunWorkflow_search_failure (env : Env) (s : State) (w w1 : World)
        (v : list float32) (e : error) :
  Query s <> [] ->
  getOllamaEmbedding env (Query s) w = (Ok v, w1) ->
  Search (DB s) w1 v 5%Z = Err e ->
  RunWorkflow env s w
  = ((Some e, s), {| trace := trace w ++ [embedding_request (Query s);
                                          EvSearch 5];
                     files := files w |}).
Proof.
  intros Hq Hemb Hsearch.
  pose proof (getOllamaEmbedding_world env (Query s) w) as Hw1.
  rewrite Hemb in Hw1. cbn [snd] in Hw1.
  unfold RunWorkflow. cbn [run_nodes]. unfold bind at 1.
  unfold RetrieverNode at 1, QueryEmbedding, bind.
  destruct (Query s) as [|c q] eqn:Hquery; [congruence|]. cbn [is_empty].
  rewrite Hemb. unfold call. rewrite Hsearch. cbn [fst snd ret].
  subst w1. cbn [trace files]. rewrite <- app_assoc. reflexivity.
Qed.

Lemma RunWorkflow_search_failure_witness :
  fst (RunWorkflow blank_scan_env
         {| Query := str "q"; Docs := []; Ans := [];
            DB := {| Search := fun _ _ _ => Err (str "connection lost") |} |}
         world0)
  = (Some (str "connection lost"),
     {| Query := str "q"; Docs := []; Ans := [];
        DB := {| Search := fun _ _ _ => Err (str "connection lost") |} |}).
Proof.
  rewrite (RunWorkflow_search_failure blank_scan_env
             {| Query := str "q"; Docs := []; Ans := [];
                DB := {| Search := fun _ _ _ => Err (str "connection lost") |} |}
             world0
             (snd (getOllamaEmbedding blank_scan_env (str "q") world0))
             (repeat 0%Z 768) (str "connection lost")).
  - reflexivity.
  - discriminate.
  - reflexivity.
  - reflexivity.
Defined.

Lemma advisory_suffix_length : len advisory_suffix = 82%Z.
Proof. reflexivity. Qed.

Lemma critiqued_long (ans : gostring) : (50 <= len (critiqued ans))%Z.
Proof.
  unfold critiqued. destruct (Z.ltb_spec (len ans) 50) as [H|H]; [|exact H].
  unfold len in *. rewrite length_app.
  pose proof advisory_suffix_length as Hs. unfold len in Hs. lia.
Qed.

Lemma CriticNode_critiqued (s : State) (ans : gostring) (w : World) :
  CriticNode (set_Ans s ans) w = ((None, set_Ans s (critiqued ans)), w).
Proof.
  unfold CriticNode, critiqued. cbn [Ans set_Ans].
  destruct (len ans <? 50)%Z; reflexivity.
Qed.

(** X10. The critique stage is idempotent: its output answer is never shorter
    than 50 bytes, so a second pass changes nothing and the advisory
    suffix cannot pile up. *)
Theorem CriticNode_idempotent (s : State) (w : World) :
  (50 <= len (Ans (snd (fst (CriticNode s w)))))%Z
  /\ CriticNode (snd (fst (CriticNode s w))) w = CriticNode s w.
Proof.
  unfold CriticNode.
  destruct (Z.ltb_spec (len (Ans s)) 50) as [Hshort|Hlong];
    cbn [ret fst snd Ans set_Ans].
  - assert (Hl : (50 <= len (Ans s ++ advisory_suffix))%Z).
    { unfold len in *. rewrite length_app.
      pose proof advisory_suffix_length as Hs. unfold len in Hs. lia. }
    split; [exact Hl|].
    replace (len (Ans s ++ advisory_suffix) <? 50)%Z with false
      by (symmetry; apply Z.ltb_ge; exact Hl).
    reflexivity.
  - split; [exact Hlong|].
    replace (len (Ans s) <? 50)%Z with false
      by (symmetry; apply Z.ltb_ge; exact Hlong).
    reflexivity.
Qed.

(** Once the summarize stage has set the answer, the last two stages
    critique it and print the header and the critiqued answer. *)
Lemma workflow_tail (s : State) (ans : gostring) (w : World) :
  run_nodes [CriticNode; AnswerNode] (set_Ans s ans) w
  = ((None, set_Ans s (critiqued ans)),
     {| trace := trace w ++ [EvPrint answer_header; EvPrint (critiqued ans)];
        files := files w |}).
Proof.
  cbn [run_nodes]. unfold bind at 1. rewrite CriticNode_critiqued.
  cbn [fst snd]. unfold bind, AnswerNode, bind, call, ret.
  cbn [fst snd trace files Ans set_Ans]. rewrite <- app_assoc. reflexivity.
Qed.

Lemma SummarizerNode_run (env : Env) (s : State) (w : World)
      (resp : HttpResponse) :
  Docs s <> [] ->
  http_do env w generateURL
          {| Model := str "llama3"; Prompt := build_prompt env s |} = Ok resp ->
  SummarizerNode env s w
  = (match fst (read_stream (json_decode_stream env (Body resp)) []) with
     | Err e => (Some (str "decoding ollama response: " ++ e), s)
     | Ok summary => (None, set_Ans s summary)
     end,
     {| trace := trace w ++ [generation_request env s]; files := files w |}).
Proof.
  intros Hdocs Hresp. unfold SummarizerNode.
  destruct (Docs s) as [|d ds] eqn:Hd; [congruence|].
  cbn [length Nat.eqb]. unfold bind, call. rewrite Hresp.
  destruct (fst (read_stream _ _)); reflexivity.
Qed.

Lemma RunWorkflow_after_retrieval (env : Env) (s s1 : State) (w w1 : World) :
  RetrieverNode env s w = ((None, s1), w1) ->
  RunWorkflow env s w
  = run_nodes [SummarizerNode env; CriticNode; AnswerNode] s1 w1.
Proof.
  intros Hr. unfold RunWorkflow.
  change (run_nodes [RetrieverNode env; SummarizerNode env; CriticNode;
                     AnswerNode] s w)
    with (bind (RetrieverNode env s)
               (fun r => match fst r with
                         | Some e => ret (Some e, snd r)
                         | None => run_nodes [SummarizerNode env; CriticNode;
                                              AnswerNode] (snd r)
                         end) w).
  unfold bind. rewrite Hr. reflexivity.
Qed.

Lemma run_nodes_after_summary (env : Env) (s : State) (ans : gostring)
      (w w1 : World) :
  SummarizerNode env s w = ((None, set_Ans s ans), w1) ->
  run_nodes [SummarizerNode env; CriticNode; AnswerNode] s w
  = run_nodes [CriticNode; AnswerNode] (set_Ans s ans) w1.
Proof.
  intros Hs.
  change (run_nodes [SummarizerNode env; CriticNode; AnswerNode] s w)
    with (bind (SummarizerNode env s)
               (fun r => match fst r with
                         | Some e => ret (Some e, snd r)
                         | None => run_nodes [CriticNode; AnswerNode] (snd r)
                         end) w).
  unfold bind. rewrite Hs. reflexivity.
Qed.

Lemma workflow_no_documents (env : Env) (s : State) (w w1 : World)
        (v : list float32) :
  Query s <> [] ->
  getOllamaEmbedding env (Query s) w = (Ok v, w1) ->
  Search (DB s) w1 v 5%Z = Ok [] ->
  RunWorkflow env s w
  = ((None, set_Ans (set_Docs s [])
                    (no_documents_message ++ advisory_suffix)),
     {| trace := trace w
                 ++ [embedding_request (Query s); EvSearch 5;
                     EvPrint answer_header;
                     EvPrint (no_documents_message ++ advisory_suffix)];
        files := files w |}).
Proof.
  intros Hq Hemb Hsearch.
  pose proof (getOllamaEmbedding_world env (Query s) w) as Hw1.
  rewrite Hemb in Hw1. cbn [snd] in Hw1.
  rewrite (RunWorkflow_after_retrieval env s _ w _
             (RetrieverNode_found env s w w1 v [] Hq Hemb Hsearch)).
  rewrite (run_nodes_after_summary env (set_Docs s []) no_documents_message
             _ _ eq_refl).
  rewrite workflow_tail. subst w1. cbn [trace files].
  change (critiqued no_documents_message)
    with (no_documents_message ++ advisory_suffix).
  rewrite <- !app_assoc. reflexivity.
Qed.

(** X11. When the store has no document for the query, the workflow succeeds
    with the fixed no-documents message followed by the advisory suffix
    (the message is shorter than 50 bytes): after the embedding request and
    the search it sends no generation request and prints the header and
    that answer. *)
Theorem RunWorkflow_no_documents (env : Env) (s : State) (w w1 : World)
        (v : list float32) :
  Query s <> [] ->
  getOllamaEmbedding env (Query s) w = (Ok v, w1) ->
  Search (DB s) w1 v 5%Z = Ok [] ->
  RunWorkflow env s w
  = ((None, set_Ans (set_Docs s [])
                    (no_documents_message ++ advisory_suffix)),
     {| trace := trace w
                 ++ [embedding_request (Query s); EvSearch 5;
                     EvPrint answer_header;
                     EvPrint (no_documents_message ++ advisory_suffix)];
        files := files w |})
  /\ (len no_documents_message < 50)%Z.
Proof.
  intros Hq Hemb Hsearch.
  split; [exact (workflow_no_documents env s w w1 v Hq Hemb Hsearch)|].
  reflexivity.
Qed.

Lemma RunWorkflow_no_documents_witness :
  Ans (snd (fst (RunWorkflow blank_scan_env (state_with [] []) world0)))
  = str "No documents found matching the query." ++ advisory_suffix.
Proof.
  destruct (RunWorkflow_no_documents blank_scan_env (state_with [] []) world0
              (snd (getOllamaEmbedding blank_scan_env (str "what is this?")
                                       world0))
              (repeat 0%Z 768)) as [Hrun _].
  - discriminate.
  - reflexivity.
  - reflexivity.
  - rewrite Hrun. reflexivity.
Defined.

(** X12. A full run: with documents found and a stream that ends on a done
    fragment, the workflow makes one embedding request, one search for 5
    documents and one generation request, in that order, then prints the
    header and the answer.  The answer is the fragment texts in arrival
    order, followed by the advisory suffix when they add up to less than 50
    bytes. *)
Theorem RunWorkflow_answers (env : Env) (s : State) (w w1 : World)
        (v : list float32) (docs : list gostring) (resp : HttpResponse)
        (rs : list gostring) (last : gostring) (unread : list decode_step) :
  Query s <> [] ->
  getOllamaEmbedding env (Query s) w = (Ok v, w1) ->
  Search (DB s) w1 v 5%Z = Ok docs ->
  docs <> [] ->
  http_do env {| trace := trace w1 ++ [EvSearch 5]; files := files w1 |}
          generateURL
          {| Model := str "llama3";
             Prompt := build_prompt env (set_Docs s docs) |} = Ok resp ->
  json_decode_stream env (Body resp)
  = map not_done rs ++ Fragment last true :: unread ->
  RunWorkflow env s w
  = ((None, set_Ans (set_Docs s docs) (critiqued (concat rs ++ last))),
     {| trace := trace w
                 ++ [embedding_request (Query s); EvSearch 5;
                     generation_request env (set_Docs s docs);
                     EvPrint answer_header;
                     EvPrint (critiqued (concat rs ++ last))];
        files := files w |}).
Proof.
  intros Hq Hemb Hsearch Hdocs Hresp Hstream.
  pose proof (getOllamaEmbedding_world env (Query s) w) as Hw1.
  rewrite Hemb in Hw1. cbn [snd] in Hw1.
  rewrite (RunWorkflow_after_retrieval env s _ w _
             (RetrieverNode_found env s w w1 v docs Hq Hemb Hsearch)).
  assert (Hsum : SummarizerNode env (set_Docs s docs)
                   {| trace := trace w1 ++ [EvSearch 5]; files := files w1 |}
                 = ((None, set_Ans (set_Docs s docs) (concat rs ++ last)),
                    {| trace := (trace w1 ++ [EvSearch 5])
                                ++ [generation_request env (set_Docs s docs)];
                       files := files w1 |})).
  { rewrite (SummarizerNode_run env (set_Docs s docs) _ resp Hdocs Hresp).
    rewrite Hstream, read_stream_not_done. reflexivity. }
  rewrite (run_nodes_after_summary env _ _ _ _ Hsum), workflow_tail.
  subst w1. cbn [trace files]. rewrite <- !app_assoc. reflexivity.
Qed.

Lemma RunWorkflow_answers_witness :
  Ans (snd (fst (RunWorkflow blank_scan_env
                   {| Query := str "q"; Docs := []; Ans := [];
                      DB := {| Search := fun _ _ _ => Ok [str "a doc"] |} |}
                   world0)))
  = str "Hello, world" ++ advisory_suffix.
Proof.
  rewrite (RunWorkflow_answers blank_scan_env
             {| Query := str "q"; Docs := []; Ans := [];
                DB := {| Search := fun _ _ _ => Ok [str "a doc"] |} |}
             world0
             (snd (getOllamaEmbedding blank_scan_env (str "q") world0))
             (repeat 0%Z 768) [str "a doc"]
             {| StatusCode := 200;
                Body := build_prompt blank_scan_env
                          {| Query := str "q"; Docs := [str "a doc"];
                             Ans := [];
                             DB := {| Search := fun _ _ _ =>
                                                  Ok [str "a doc"] |} |} |}
             [str "Hello"] (str ", world")
             [Fragment (str " (never read)") false]).
  - reflexivity.
  - discriminate.
  - reflexivity.
  - reflexivity.
  - discriminate.
  - reflexivity.
  - reflexivity.
Defined.

(** X13. A fragment that fails to decode discards what was read so far: the
    workflow fails with the decode error, the answer stays as it was
    before the run and nothing is printed. *)
Theorem RunWorkflow_decode_failure (env : Env) (s : State) (w w1 : World)
        (v : list float32) (docs : list gostring) (resp : HttpResponse)
        (rs : list gostring) (e : error) (unread : list decode_step) :
  Query s <> [] ->
  getOllamaEmbedding env (Query s) w = (Ok v, w1) ->
  Search (DB s) w1 v 5%Z = Ok docs ->
  docs <> [] ->
  http_do env {| trace := trace w1 ++ [EvSearch 5]; files := files w1 |}
          generateURL
          {| Model := str "llama3";
             Prompt := build_prompt env (set_Docs s docs) |} = Ok resp ->
  json_decode_stream env (Body resp)
  = map not_done rs ++ DecodeFailure e :: unread ->
  RunWorkflow env s w
  = ((Some (str "decoding ollama response: " ++ e), set_Docs s docs),
     {| trace := trace w
                 ++ [embedding_request (Query s); EvSearch 5;
                     generation_request env (set_Docs s docs)];
        files := files w |})
  /\ Ans (set_Docs s docs) = Ans s.
Proof.
  intros Hq Hemb Hsearch Hdocs Hresp Hstream.
  split; [|reflexivity].
  pose proof (getOllamaEmbedding_world env (Query s) w) as Hw1.
  rewrite Hemb in Hw1. cbn [snd] in Hw1.
  rewrite (RunWorkflow_after_retrieval env s _ w _
             (RetrieverNode_found env s w w1 v docs Hq Hemb Hsearch)).
  cbn [run_nodes]. unfold bind at 1.
  rewrite (SummarizerNode_run env (set_Docs s docs) _ resp Hdocs Hresp).
  rewrite Hstream, read_stream_not_done. cbn [read_stream fst snd ret].
  subst w1. cbn [trace files]. rewrite <- !app_assoc. reflexivity.
Qed.

Lemma RunWorkflow_decode_failure_witness :
  fst (RunWorkflow broken_stream_env
         {| Query := str "q"; Docs := []; Ans := [];
            DB := {| Search := fun _ _ _ => Ok [str "a doc"] |} |}
         world0)
  = (Some (str "decoding ollama response: unexpected end of JSON input"),
     {| Query := str "q"; Docs := [str "a doc"]; Ans := [];
        DB := {| Search := fun _ _ _ => Ok [str "a doc"] |} |}).
Proof.
  destruct (RunWorkflow_decode_failure broken_stream_env
              {| Query := str "q"; Docs := []; Ans := [];
                 DB := {| Search := fun _ _ _ => Ok [str "a doc"] |} |}
              world0
              (snd (getOllamaEmbedding broken_stream_env (str "q") world0))
              (repeat 0%Z 768) [str "a doc"]
              {| StatusCode := 200;
                 Body := build_prompt broken_stream_env
                           {| Query := str "q"; Docs := [str "a doc"];
                              Ans := [];
                              DB := {| Search := fun _ _ _ =>
                                                   Ok [str "a doc"] |} |} |}
              [str "Hel"] (str "unexpected end of JSON input") [])
    as [Hrun _].
  - discriminate.
  - reflexivity.
  - reflexivity.
  - discriminate.
  - reflexivity.
  - reflexivity.
  - rewrite Hrun. reflexivity.
Defined.

(** The numbered document blocks of the prompt, in closed form. *)
Lemma docText_loop_blocks (docs : list gostring) :
  forall (i : nat) (docText : gostring),
    docText_loop docs i docText
    = docText
      ++ concat (map (fun kd : nat * gostring =>
                        str "Document " ++ itoa (fst kd + 1) ++ str ":" ++ nl
                        ++ snd kd ++ nl ++ nl)
                     (combine (seq i (length docs)) docs)).
Proof.
  induction docs as [|d docs IH]; intros i docText;
    cbn [docText_loop length seq combine map concat].
  - rewrite app_nil_r. reflexivity.
  - rewrite IH. cbn [fst snd]. rewrite <- !app_assoc. reflexivity.
Qed.

(** X14. The generation prompt quotes the query once, then lists every retrieved
    document exactly once, in retrieval order, under the headings
    "Document 1:", "Document 2:", ... *)
Theorem build_prompt_numbers_documents (env : Env) (s : State) :
  build_prompt env s
  = str "The user asked: " ++ strconv_Quote env (Query s) ++ str "." ++ nl ++ nl
    ++ str "Summarize the following documents in the context of this query:"
    ++ nl ++ nl
    ++ concat (map (fun kd : nat * gostring =>
                      str "Document " ++ itoa (fst kd + 1) ++ str ":" ++ nl
                      ++ snd kd ++ nl ++ nl)
                   (combine (seq 0 (length (Docs s))) (Docs s))).
Proof.
  unfold build_prompt. rewrite docText_loop_blocks. reflexivity.
Qed.

(* ================================================================== *)
(** ** The store adapter and the query command *)
(* ================================================================== *)

Lemma SearchImpl_loop_map (docs : list Document) :
  forall done : list gostring,
    SearchImpl_loop docs (length done) (done ++ repeat [] (length docs))
    = done ++ map (fun d => str "File: " ++ Filename d ++ nl ++ Content d) docs.
Proof.
  induction docs as [|d docs IH]; intros done;
    cbn [SearchImpl_loop length repeat map].
  - reflexivity.
  - rewrite set_index_app.
    pose proof (IH (done ++ [str "File: " ++ Filename d ++ nl ++ Content d]))
      as Hnext.
    rewrite length_app, Nat.add_1_r, <- !app_assoc in Hnext.
    exact Hnext.
Qed.

Lemma convertDocs_loop_map (docs : list Document) :
  forall done : list gostring,
    convertDocs_loop docs (length done) (done ++ repeat [] (length docs))
    = done ++ map (fun d => str "File: " ++ Filename d ++ nl ++ Content d) docs.
Proof.
  induction docs as [|d docs IH]; intros done;
    cbn [convertDocs_loop length repeat map].
  - reflexivity.
  - rewrite set_index_app.
    pose proof (IH (done ++ [str "File: " ++ Filename d ++ nl ++ Content d]))
      as Hnext.
    rewrite length_app, Nat.add_1_r, <- !app_assoc in Hnext.
    exact Hnext.
Qed.

Lemma QuerySimilar_rows_scanned (docs : list Document) :
  forall results : list Document,
    QuerySimilar_rows (map Ok docs) results = Ok (results ++ docs).
Proof.
  induction docs as [|d docs IH]; intros results;
    cbn [map QuerySimilar_rows].
  - rewrite app_nil_r. reflexivity.
  - rewrite IH, <- app_assoc. reflexivity.
Qed.

Lemma QuerySimilar_rows_scan_error (docs : list Document) (e : error)
      (rest : list (result Document)) :
  forall results : list Document,
    QuerySimilar_rows (map Ok docs ++ Err e :: rest) results = Err e.
Proof.
  induction docs as [|d docs IH]; intros results;
    cbn [map app QuerySimilar_rows]; [reflexivity|apply IH].
Qed.

(** X15. When every row scans, the search hands the workflow one text per row,
    in row order, each "File: <filename>", a newline, and the content; this
    is also what [convertDocs] makes of the same documents. *)
Theorem SearchImpl_formats_rows (q : db_query) (w : World)
        (queryEmb : list float32) (topK : Z) (docs : list Document) :
  q w queryEmb topK = Ok (map Ok docs) ->
  QuerySimilar q w queryEmb topK = Ok docs
  /\ SearchImpl q w queryEmb topK
     = Ok (map (fun d => str "File: " ++ Filename d ++ nl ++ Content d) docs)
  /\ SearchImpl q w queryEmb topK = Ok (convertDocs docs).
Proof.
  intros Hq.
  assert (Hdocs : QuerySimilar q w queryEmb topK = Ok docs).
  { unfold QuerySimilar. rewrite Hq. apply QuerySimilar_rows_scanned. }
  split; [exact Hdocs|].
  unfold SearchImpl, convertDocs. rewrite Hdocs.
  pose proof (SearchImpl_loop_map docs []) as Hs.
  pose proof (convertDocs_loop_map docs []) as Hc.
  cbn [length app] in Hs, Hc. rewrite Hs, Hc.
  split; reflexivity.
Qed.

Lemma SearchImpl_formats_rows_witness :
  SearchImpl two_rows world0 [] 5
  = Ok [str "File: a.txt" ++ nl ++ str "alpha";
        str "File: b.md" ++ nl ++ str "beta"].
Proof.
  destruct (SearchImpl_formats_rows two_rows world0 [] 5
              [ {| ID := 1; Filename := str "a.txt"; Source := str "local";
                   Content := str "alpha" |};
                {| ID := 2; Filename := str "b.md"; Source := str "local";
                   Content := str "beta" |} ] eq_refl) as (_ & Hs & _).
  exact Hs.
Defined.

(** X16. A search fails as a whole.  A failed query gives the error prefixed
    with "query failed: "; a row that fails to scan gives that row's error
    as it is and none of the rows scanned before it. *)
Theorem SearchImpl_fails_as_a_whole (q : db_query) (w : World)
        (queryEmb : list float32) (topK : Z) :
  (forall e : error,
      q w queryEmb topK = Err e ->
      SearchImpl q w queryEmb topK = Err (str "query failed: " ++ e))
  /\ (forall (docs : list Document) (e : error)
             (rest : list (result Document)),
         q w queryEmb topK = Ok (map Ok docs ++ Err e :: rest) ->
         SearchImpl q w queryEmb topK = Err e).
Proof.
  split.
  - intros e Hq. unfold SearchImpl, QuerySimilar. rewrite Hq. reflexivity.
  - intros docs e rest Hq. unfold SearchImpl, QuerySimilar.
    rewrite Hq, QuerySimilar_rows_scan_error. reflexivity.
Qed.

Lemma SearchImpl_fails_as_a_whole_witness :
  SearchImpl (fun _ _ _ => Err (str "timeout")) world0 [] 5
  = Err (str "query failed: timeout")
  /\ SearchImpl (fun _ _ _ =>
                   Ok [Ok {| ID := 1; Filename := str "a.txt";
                             Source := str "local"; Content := str "alpha" |};
                       Err (str "bad row")])
                world0 [] 5
     = Err (str "bad row").
Proof.
  split.
  - destruct (SearchImpl_fails_as_a_whole
                (fun _ _ _ => Err (str "timeout")) world0 [] 5) as [Hq _].
    apply Hq. reflexivity.
  - destruct (SearchImpl_fails_as_a_whole
                (fun _ _ _ =>
                   Ok [Ok {| ID := 1; Filename := str "a.txt";
                             Source := str "local"; Content := str "alpha" |};
                       Err (str "bad row")])
                world0 [] 5) as [_ Hrow].
    apply (Hrow [ {| ID := 1; Filename := str "a.txt";
                     Source := str "local"; Content := str "alpha" |} ]
                (str "bad row") []).
    reflexivity.
Defined.

(** X17. The query command end to end.  Without a query text it prints the usage
    line and exits with status 1 before any request.  With a query text and
    a store that returns no row it exits with status 0 having printed the
    no-documents answer with the advisory suffix twice: once by the answer
    stage under its header and once on the final "Answer:" line. *)
Theorem query_command_on_empty_store (env : Env) (q : db_query) :
  (forall w : World,
      query_command env q [] w
      = (1%Z, {| trace := trace w ++ [EvPrint usage_message];
                 files := files w |}))
  /\ (forall (queryText : gostring) (w w1 : World) (v : list float32),
         queryText <> [] ->
         getOllamaEmbedding env queryText w = (Ok v, w1) ->
         q w1 v 5%Z = Ok [] ->
         query_command env q queryText w
         = (0%Z,
            {| trace := trace w
                        ++ [embedding_request queryText; EvSearch 5;
                            EvPrint answer_header;
                            EvPrint (no_documents_message ++ advisory_suffix);
                            EvPrint (str "Answer: " ++ no_documents_message
                                     ++ advisory_suffix)];
               files := files w |})).
Proof.
  split; [reflexivity|].
  intros queryText w w1 v Hq Hemb Hrows.
  unfold query_command.
  destruct queryText as [|c t] eqn:Hqt; [congruence|]. cbn [is_empty].
  rewrite <- Hqt in *. unfold bind at 1.
  rewrite (workflow_no_documents env
             {| Query := queryText; Docs := []; Ans := [];
                DB := {| Search := SearchImpl q |} |} w w1 v Hq Hemb).
  - cbn [fst snd Ans set_Ans]. unfold bind, call, ret.
    cbn [trace files Query]. rewrite <- app_assoc. reflexivity.
  - cbn [DB Search]. unfold SearchImpl, QuerySimilar. rewrite Hrows.
    reflexivity.
Qed.

Lemma query_command_on_empty_store_witness :
  fst (query_command blank_scan_env no_rows (str "anything?") world0) = 0%Z
  /\ filter is_print
            (trace (snd (query_command blank_scan_env no_rows
                                       (str "anything?") world0)))
     = [EvPrint answer_header;
        EvPrint (no_documents_message ++ advisory_suffix);
        EvPrint (str "Answer: " ++ no_documents_message ++ advisory_suffix)].
Proof.
  destruct (query_command_on_empty_store blank_scan_env no_rows) as [_ Hrun].
  rewrite (Hrun (str "anything?") world0
             (snd (getOllamaEmbedding blank_scan_env (str "anything?") world0))
             (repeat 0%Z 768)).
  - split; reflexivity.
  - discriminate.
  - reflexivity.
  - reflexivity.
Defined.

(* ================================================================== *)
(** ** Further properties of extraction and of the folder walk *)
(* ================================================================== *)

Lemma gostring_eqb_eq (a b : gostring) : gostring_eqb a b = true -> a = b.
Proof.
  revert b. induction a as [|x a IH]; intros [|y b] H; cbn in H;
    try discriminate; [reflexivity|].
  apply andb_true_iff in H as [Hxy Hab].
  apply Ascii.eqb_eq in Hxy. subst y. f_equal. apply IH, Hab.
Qed.

(** The allowlist of the folder walk and the extensions [ExtractText] has a
    branch for are the same six. *)
Lemma ext_allowed_supported (ext : gostring) :
  ext_allowed ext allowedExt = supported_ext ext.
Proof.
  unfold supported_ext, ext_in, allowedExt. cbn [map ext_allowed existsb].
  repeat match goal with
         | |- context [gostring_eqb ext ?l] => destruct (gostring_eqb ext l)
         end; reflexivity.
Qed.

(** X18. A file whose lower-cased extension is none of the six is refused with
    "unsupported file type" before anything is read or run. *)
Theorem ExtractText_unsupported (env : Env) (path : gostring) (w : World) :
  supported_ext (ToLower (Ext path)) = false ->
  ExtractText env path w = (Err (str "unsupported file type"), w).
Proof.
  unfold supported_ext. intros H.
  apply orb_false_iff in H as [H Himg].
  apply orb_false_iff in H as [Htxt Hpdf].
  unfold ExtractText. rewrite Htxt, Hpdf, Himg. reflexivity.
Qed.

Lemma ExtractText_unsupported_witness :
  ExtractText blank_scan_env (str "docs/report.docx") world0
  = (Err (str "unsupported file type"), world0)
  /\ ExtractText blank_scan_env (str "docs.pdf/README") world0
     = (Err (str "unsupported file type"), world0).
Proof.
  split.
  - apply (ExtractText_unsupported blank_scan_env (str "docs/report.docx")
                                   world0). reflexivity.
  - apply (ExtractText_unsupported blank_scan_env (str "docs.pdf/README")
                                   world0). reflexivity.
Defined.

Lemma LoadLocalFiles_walk_clean (pre : list walk_entry) :
  Forall (fun e => we_err e = None) pre ->
  forall (rest : list walk_entry) (out : list gostring),
    LoadLocalFiles_walk (pre ++ rest) out
    = LoadLocalFiles_walk rest
        (out ++ map we_path
                    (filter (fun e => negb (we_isDir e)
                                      && supported_ext
                                           (ToLower (Ext (we_path e))))
                            pre)).
Proof.
  induction 1 as [|e pre He _ IH]; intros rest out;
    cbn [app LoadLocalFiles_walk filter map].
  - rewrite app_nil_r. reflexivity.
  - rewrite He, ext_allowed_supported.
    destruct (we_isDir e); cbn [negb andb]; [apply IH|].
    destruct (supported_ext (ToLower (Ext (we_path e)))).
    + rewrite IH. cbn [map]. rewrite <- app_assoc. reflexivity.
    + apply IH.
Qed.

(** X19. The folder walk returns, in walk order, exactly the non-directory
    entries whose lower-cased extension is one [ExtractText] supports.  An
    error met on the way stops the walk: it is returned together with the
    files collected before it, and nothing after it is looked at. *)
Theorem LoadLocalFiles_collects (pre : list walk_entry) :
  Forall (fun e => we_err e = None) pre ->
  LoadLocalFiles pre
  = (map we_path
         (filter (fun e => negb (we_isDir e)
                           && supported_ext (ToLower (Ext (we_path e))))
                 pre), None)
  /\ (forall (e : walk_entry) (err : error) (post : list walk_entry),
         we_err e = Some err ->
         LoadLocalFiles (pre ++ e :: post)
         = (map we_path
                (filter (fun e => negb (we_isDir e)
                                  && supported_ext (ToLower (Ext (we_path e))))
                        pre), Some err))
  /\ Forall (fun p => supported_ext (ToLower (Ext p)) = true)
            (fst (LoadLocalFiles pre)).
Proof.
  intros Hclean.
  assert (Hrun : LoadLocalFiles pre
                 = (map we_path
                        (filter (fun e => negb (we_isDir e)
                                          && supported_ext
                                               (ToLower (Ext (we_path e))))
                                pre), None)).
  { unfold LoadLocalFiles.
    rewrite <- (app_nil_r pre) at 1.
    rewrite (LoadLocalFiles_walk_clean pre Hclean [] []). reflexivity. }
  split; [exact Hrun|]. split.
  - intros e err post He. unfold LoadLocalFiles.
    rewrite (LoadLocalFiles_walk_clean pre Hclean (e :: post) []).
    cbn [LoadLocalFiles_walk app]. rewrite He. reflexivity.
  - rewrite Hrun. cbn [fst]. apply Forall_forall. intros p Hp.
    apply in_map_iff in Hp as (e & <- & He).
    apply filter_In in He as [_ He].
    apply andb_true_iff in He as [_ He]. exact He.
Qed.

Lemma LoadLocalFiles_collects_witness :
  LoadLocalFiles sample_walk
  = ([str "data/a.TXT"; str "data/scan.pdf"], Some (str "permission denied")).
Proof.
  destruct (LoadLocalFiles_collects (firstn 4 sample_walk)) as (_ & Hstop & _).
  - repeat constructor.
  - apply (Hstop {| we_path := str "data/locked"; we_isDir := true;
                    we_err := Some (str "permission denied") |}
                 (str "permission denied")
                 [ {| we_path := str "data/z.png"; we_isDir := false;
                      we_err := None |} ]).
    reflexivity.
Defined.

Lemma image_ext_dispatch (ext : gostring) :
  ext_in ext [".png"; ".jpg"; ".jpeg"]%string = true ->
  ext_in ext [".txt"; ".md"]%string = false
  /\ ext_in ext [".pdf"]%string = false
  /\ gostring_eqb ext (str ".pdf") = false.
Proof.
  unfold ext_in. cbn [existsb]. intros H.
  destruct (gostring_eqb ext (str ".png")) eqn:Hpng;
    [apply gostring_eqb_eq in Hpng; subst ext; repeat split; reflexivity|].
  destruct (gostring_eqb ext (str ".jpg")) eqn:Hjpg;
    [apply gostring_eqb_eq in Hjpg; subst ext; repeat split; reflexivity|].
  destruct (gostring_eqb ext (str ".jpeg")) eqn:Hjpeg;
    [apply gostring_eqb_eq in Hjpeg; subst ext; repeat split; reflexivity|].
  discriminate.
Qed.

(** X20. An image file goes straight to recognition: one recognition call on the
    file itself, no page conversion, no listing, no file written; the text
    comes back trimmed and a recognition error comes back as it is. *)
Theorem ExtractText_image (env : Env) (path : gostring) (w : World) :
  ext_in (ToLower (Ext path)) [".png"; ".jpg"; ".jpeg"]%string = true ->
  ExtractText env path w = runTesseract env path w
  /\ snd (ExtractText env path w)
     = {| trace := trace w ++ [EvTesseract path]; files := files w |}
  /\ fst (ExtractText env path w)
     = match tesseract_SetImage env w path with
       | Some e => Err e
       | None => match tesseract_Text env w path with
                 | Ok text => Ok (TrimSpace text)
                 | Err e => Err e
                 end
       end.
Proof.
  intros Himg.
  destruct (image_ext_dispatch _ Himg) as (Htxt & Hpdf & Heq).
  assert (Hrun : ExtractText env path w = runTesseract env path w).
  { unfold ExtractText. rewrite Htxt, Hpdf, Himg.
    unfold ExtractTextWithOCR. rewrite Heq. reflexivity. }
  split; [exact Hrun|]. rewrite Hrun.
  split; [apply runTesseract_world|].
  unfold runTesseract, bind, call, ret.
  destruct (tesseract_SetImage env w path); [reflexivity|].
  destruct (tesseract_Text env w path); reflexivity.
Qed.

Lemma ExtractText_image_witness :
  ExtractText partial_scan_env (str "img/photo.JPEG") world0
  = (Ok (str "page two"),
     {| trace := [EvTesseract (str "img/photo.JPEG")]; files := [] |}).
Proof.
  destruct (ExtractText_image partial_scan_env (str "img/photo.JPEG") world0
              eq_refl) as (Hrun & _ & _).
  rewrite Hrun. reflexivity.
Defined.

(** The text-layer attempt makes the library call, possibly followed by the
    [pdftotext] call, and nothing else; it writes no file. *)
Lemma ExtractTextFromPDF_world (env : Env) (path : gostring) (w : World) :
  files (snd (ExtractTextFromPDF env path w)) = files w
  /\ (trace (snd (ExtractTextFromPDF env path w))
      = trace w ++ [EvPdfTextLayer path]
      \/ trace (snd (ExtractTextFromPDF env path w))
         = trace w ++ [EvPdfTextLayer path; EvPdftotext path]).
Proof.
  unfold ExtractTextFromPDF, bind, call, ret.
  destruct (pdf_text_layer env w path) as [buf|e]; cbn [snd trace files];
    [|auto].
  destruct (is_empty (TrimSpace buf)); cbn [snd trace files]; [|auto].
  destruct (pdftotext env _ path); cbn [snd trace files];
    (split; [reflexivity|right; rewrite <- app_assoc; reflexivity]).
Qed.

(** X21. A PDF whose text-layer attempt gives text that is not blank is answered
    from that attempt alone: the text is returned as the attempt gave it and
    the optical fallback does not run (no page conversion, no recognition,
    no file written). *)
Theorem ExtractText_pdf_text_layer (env : Env) (path text : gostring)
        (w w1 : World) :
  ToLower (Ext path) = str ".pdf" ->
  ExtractTextFromPDF env path w = (Ok text, w1) ->
  TrimSpace text <> [] ->
  ExtractText env path w = (Ok text, w1)
  /\ pdftoppm_runs (trace w1) = pdftoppm_runs (trace w)
  /\ filter is_tesseract (trace w1) = filter is_tesseract (trace w)
  /\ files w1 = files w.
Proof.
  intros Hext Hlayer Htext.
  pose proof (ExtractTextFromPDF_world env path w) as [Hfs Htr].
  pose proof (ExtractTextFromPDF_no_pdftoppm env path w) as Hruns.
  rewrite Hlayer in Hfs, Htr, Hruns. cbn [snd] in Hfs, Htr, Hruns.
  split.
  - unfold ExtractText. rewrite Hext.
    change (ext_in (str ".pdf") [".txt"; ".md"]%string) with false.
    change (ext_in (str ".pdf") [".pdf"]%string) with true.
    cbv iota. unfold bind. rewrite Hlayer.
    destruct (TrimSpace text); [congruence|reflexivity].
  - split; [exact Hruns|]. split; [|exact Hfs].
    destruct Htr as [-> | ->]; rewrite filter_app; cbn [filter is_tesseract];
      apply app_nil_r.
Qed.

Lemma ExtractText_pdf_text_layer_witness :
  ExtractText text_layer_env (str "book.pdf") world0
  = (Ok (str "Chapter 1"),
     {| trace := [EvPdfTextLayer (str "book.pdf")]; files := [] |}).
Proof.
  destruct (ExtractText_pdf_text_layer text_layer_env (str "book.pdf")
              (str "Chapter 1") world0
              {| trace := [EvPdfTextLayer (str "book.pdf")]; files := [] |})
    as [Hrun _].
  - reflexivity.
  - reflexivity.
  - discriminate.
  - exact Hrun.
Defined.

(** X22. When the text layer is blank or unreadable and the fallback cannot get
    page images, extraction fails: a failed page conversion gives the error
    "pdftoppm convert failed: ..." and a failed listing gives the listing
    error as it is.  No recognition is run, and the images a failed
    conversion did write are left on disk. *)
Theorem ExtractText_pdf_no_page_images (env : Env) (path : gostring)
        (w w1 : World) (r1 : result gostring) (written : list gostring) :
  ToLower (Ext path) = str ".pdf" ->
  ExtractTextFromPDF env path w = (r1, w1) ->
  (forall text, r1 = Ok text -> TrimSpace text = []) ->
  (forall e : error,
      pdftoppm env w1 path (tmpPrefix env) = (written, Some e) ->
      ExtractText env path w
      = (Err (str "pdftoppm convert failed: " ++ e),
         after_pdftoppm env path w1 written))
  /\ (forall e : error,
         pdftoppm env w1 path (tmpPrefix env) = (written, None) ->
         Glob env (after_pdftoppm env path w1 written)
              (tmpPrefix env ++ str "-*.png") = Err e ->
         ExtractText env path w
         = (Err e, after_glob env path w1 written)).
Proof.
  intros Hext Hlayer Hblank.
  rewrite (ExtractText_pdf_fallback env path w w1 r1 Hext Hlayer Hblank).
  unfold ExtractTextWithOCR. rewrite Hext.
  change (gostring_eqb (str ".pdf") (str ".pdf")) with true.
  unfold bind, call, write_files, ret. split.
  - intros e Hconv. rewrite Hconv. reflexivity.
  - intros e Hconv Hglob. rewrite Hconv. cbn [fst snd trace files].
    unfold after_pdftoppm in Hglob. rewrite Hglob. reflexivity.
Qed.

Lemma ExtractText_pdf_no_page_images_witness :
  fst (ExtractText no_pdftoppm_env scan_pdf world0)
  = Err (str "pdftoppm convert failed: executable file not found").
Proof.
  destruct (ExtractText_pdf_no_page_images no_pdftoppm_env scan_pdf world0
              (snd (ExtractTextFromPDF no_pdftoppm_env scan_pdf world0))
              (Ok []) [] eq_refl eq_refl) as [Hconv _].
  - intros text Htext. injection Htext as <-. reflexivity.
  - rewrite (Hconv (str "executable file not found") eq_refl). reflexivity.
Defined.

(* ================================================================== *)
(** ** Further properties of the ingestion loop *)
(* ================================================================== *)

Lemma extends_refl (w : World) : extends w w.
Proof.
  split; [exists []|exists []]; rewrite app_nil_r; reflexivity.
Qed.

Lemma extends_trans (w1 w2 w3 : World) :
  extends w1 w2 -> extends w2 w3 -> extends w1 w3.
Proof.
  intros [[a1 Ha1] [m1 Hm1]] [[a2 Ha2] [m2 Hm2]]. split.
  - exists (a1 ++ a2). rewrite Ha2, Ha1, app_assoc. reflexivity.
  - exists (m1 ++ m2). rewrite Hm2, Hm1, app_assoc. reflexivity.
Qed.

Lemma extends_events (w : World) (added : list event) (more : list gostring) :
  extends w {| trace := trace w ++ added; files := files w ++ more |}.
Proof.
  split; [exists added|exists more]; reflexivity.
Qed.

Lemma extends_trace (w w' : World) (added : list event) :
  trace w' = trace w ++ added -> files w' = files w -> extends w w'.
Proof.
  intros Htr Hfs. split; [exists added; exact Htr|].
  exists []. rewrite app_nil_r. exact Hfs.
Qed.

Lemma extends_In (w w' : World) (e : event) :
  extends w w' -> In e (trace w) -> In e (trace w').
Proof.
  intros [[added Htr] _] He. rewrite Htr. apply in_or_app. left. exact He.
Qed.

Lemma log_Println_world (parts : list gostring) (w : World) :
  log_Println parts w
  = (tt, {| trace := trace w ++ [EvLog (join_space parts)];
            files := files w |}).
Proof. reflexivity. Qed.

Lemma ExtractTextWithOCR_extends (env : Env) (path : gostring) (w : World) :
  extends w (snd (ExtractTextWithOCR env path w)).
Proof.
  destruct (gostring_eqb (ToLower (Ext path)) (str ".pdf")) eqn:Hpdf.
  - apply gostring_eqb_eq in Hpdf.
    destruct (pdftoppm env w path (tmpPrefix env)) as [written [e|]] eqn:Hconv.
    + unfold ExtractTextWithOCR. rewrite Hpdf.
      change (gostring_eqb (str ".pdf") (str ".pdf")) with true.
      unfold bind, call, write_files, ret. rewrite Hconv.
      cbn [fst snd trace files]. apply extends_events.
    + destruct (Glob env (after_pdftoppm env path w written)
                     (tmpPrefix env ++ str "-*.png")) as [matches|e] eqn:Hglob.
      * destruct (recognised_total env matches
                    (after_glob env path w written))
          as (rs & w2 & Hrs & _ & Htr & Hfs).
        rewrite (ExtractTextWithOCR_pdf env path w w2 written matches rs
                   Hpdf Hconv Hglob Hrs).
        cbn [snd]. cbn [after_glob trace files] in Htr, Hfs. split.
        -- eexists. rewrite Htr, <- !app_assoc. reflexivity.
        -- exists written. exact Hfs.
      * unfold ExtractTextWithOCR. rewrite Hpdf.
        change (gostring_eqb (str ".pdf") (str ".pdf")) with true.
        unfold bind, call, write_files, ret. rewrite Hconv.
        cbn [fst snd trace files]. unfold after_pdftoppm in Hglob.
        rewrite Hglob. cbn [snd]. split.
        -- eexists. cbn [trace]. rewrite <- !app_assoc. reflexivity.
        -- exists written. reflexivity.
  - unfold ExtractTextWithOCR. rewrite Hpdf. rewrite runTesseract_world.
    apply (extends_events w [EvTesseract path] []) || idtac.
    split; [eexists; reflexivity|exists []; cbn [files]].
    rewrite app_nil_r. reflexivity.
Qed.

Lemma ExtractTextFromPDF_extends (env : Env) (path : gostring) (w : World) :
  extends w (snd (ExtractTextFromPDF env path w)).
Proof.
  destruct (ExtractTextFromPDF_world env path w) as [Hfs [Htr|Htr]];
    eapply extends_trace; eauto.
Qed.

(** Extraction only adds to the record of external calls and to the files
    on disk. *)
Lemma ExtractText_extends (env : Env) (path : gostring) (w : World) :
  extends w (snd (ExtractText env path w)).
Proof.
  unfold ExtractText.
  destruct (ext_in (ToLower (Ext path)) [".txt"; ".md"]%string).
  { unfold call. cbn [snd].
    eapply extends_trace; cbn [trace files]; reflexivity. }
  destruct (ext_in (ToLower (Ext path)) [".pdf"]%string).
  { unfold bind.
    pose proof (ExtractTextFromPDF_extends env path w) as Hpdf.
    destruct (ExtractTextFromPDF env path w) as [[text|e] w1]; cbn [snd] in Hpdf.
    - destruct (negb (is_empty (TrimSpace text))); [exact Hpdf|].
      eapply extends_trans; [exact Hpdf|apply ExtractTextWithOCR_extends].
    - eapply extends_trans; [exact Hpdf|apply ExtractTextWithOCR_extends]. }
  destruct (ext_in (ToLower (Ext path)) [".png"; ".jpg"; ".jpeg"]%string).
  { apply ExtractTextWithOCR_extends. }
  apply extends_refl.
Qed.

Lemma EmbedChunks_extends (env : Env) (chunks : list gostring) (w : World) :
  extends w (snd (EmbedChunks env chunks w)).
Proof.
  destruct (EmbedChunks env chunks w) as [r w'] eqn:Hrun.
  destruct (EmbedChunks_requests env chunks w w' r Hrun)
    as [Hfs Htr]. cbn [snd].
  destruct r as [vs|e].
  - eapply extends_trace; eauto.
  - destruct Htr as [[_ Htr]|(pre & c & post & _ & Htr)].
    + apply (extends_trace w w' []); [rewrite app_nil_r|]; assumption.
    + eapply extends_trace; eauto.
Qed.

Lemma insert_loop_run (env : Env) (f : gostring) (chunks : list gostring) :
  forall (embs : list (list float32)) (w : World),
    length embs = length chunks ->
    exists w' : World,
      insert_loop env f chunks embs w = (Returns tt, w')
      /\ filter is_insert (trace w')
         = filter is_insert (trace w)
           ++ map (fun ce => EvInsert f (str "local") (fst ce) (snd ce))
                  (combine chunks embs)
      /\ extends w w'.
Proof.
  induction chunks as [|c cs IH]; intros embs w Hlen.
  - exists w. cbn [insert_loop combine map]. rewrite app_nil_r.
    split; [reflexivity|]. split; [reflexivity|apply extends_refl].
  - destruct embs as [|e es]; [discriminate|].
    cbn [insert_loop combine map fst snd]. unfold bind at 1. unfold call at 1.
    set (w1 := {| trace := trace w ++ [EvInsert f (str "local") c e];
                  files := files w |}).
    assert (H1 : extends w w1) by (apply extends_trace with
                                     (added := [EvInsert f (str "local") c e]);
                                   reflexivity).
    assert (F1 : filter is_insert (trace w1)
                 = filter is_insert (trace w)
                   ++ [EvInsert f (str "local") c e]).
    { unfold w1. cbn [trace]. rewrite filter_app. reflexivity. }
    destruct (storage_InsertEmbedding env w f (str "local") c e) as [err|].
    + unfold bind at 1. rewrite log_Println_world.
      set (w2 := {| trace := trace w1
                             ++ [EvLog (join_space [str "db insert error:";
                                                    err])];
                    files := files w1 |}).
      destruct (IH es w2 ltac:(simpl in Hlen; lia)) as (w' & Hrun & Hf & Hext).
      exists w'. split; [exact Hrun|]. split.
      * rewrite Hf. unfold w2. cbn [trace]. rewrite filter_app.
        cbn [filter is_insert]. rewrite app_nil_r, F1, <- app_assoc.
        reflexivity.
      * eapply extends_trans; [exact H1|].
        eapply extends_trans; [|exact Hext].
        eapply extends_trace; reflexivity.
    + unfold bind at 1. unfold ret at 1.
      destruct (IH es w1 ltac:(simpl in Hlen; lia)) as (w' & Hrun & Hf & Hext).
      exists w'. split; [exact Hrun|]. split.
      * rewrite Hf, F1, <- app_assoc. reflexivity.
      * eapply extends_trans; eauto.
Qed.



(** X24. A file whose text is extracted, chunked and embedded is stored whole:
    one vector per chunk, every vector of dimension 768, and one insert per
    chunk in chunk order, each chunk with its own vector. *)
Theorem index_file_stores_every_chunk (env : Env) (f text : gostring)
        (w w1 w2 : World) (chunks : list gostring)
        (embs : list (list float32)) :
  ExtractText env f (snd (log_Println [str "Indexing:"; f] w)) = (Ok text, w1) ->
  ChunkText text = Returns chunks ->
  EmbedChunks env chunks w1 = (Ok embs, w2) ->
  length embs = length chunks
  /\ Forall (fun v => length v = 768) embs
  /\ exists w3 : World,
       index_file env f w = (Returns tt, w3)
       /\ filter is_insert (trace w3)
          = filter is_insert (trace w2)
            ++ map (fun ce => EvInsert f (str "local") (fst ce) (snd ce))
                   (combine chunks embs).
Proof.
  intros Hext Hchunks Hemb.
  pose proof (EmbedChunks_Ok_inv env chunks w1 w2 embs Hemb) as Hall.
  pose proof (embeds_length env chunks w1 w2 embs Hall) as Hlen.
  split; [exact Hlen|].
  split; [exact (embeds_dimension env chunks w1 w2 embs Hall)|].
  destruct (insert_loop_run env f chunks embs w2 Hlen) as (w3 & Hrun & Hf & _).
  exists w3. split; [|exact Hf].
  unfold index_file, bind.
  destruct (log_Println [str "Indexing:"; f] w) as [[] w0] eqn:Hlog.
  cbn [snd] in Hext. rewrite Hext, Hchunks, Hemb. exact Hrun.
Qed.

Lemma index_file_stores_every_chunk_witness :
  exists w3 : World,
    index_file failing_store_env notes_txt world0 = (Returns tt, w3)
    /\ filter is_insert (trace w3)
       = [EvInsert notes_txt (str "local") (str "alpha") (repeat 0%Z 768);
          EvInsert notes_txt (str "local") (str "beta") (repeat 0%Z 768)].
Proof.
  destruct (index_file_stores_every_chunk failing_store_env notes_txt
              (str "alpha" ++ nl ++ nl ++ str "beta") world0
              (snd (ExtractText failing_store_env notes_txt
                      (snd (log_Println [str "Indexing:"; notes_txt] world0))))
              (snd (EmbedChunks failing_store_env [str "alpha"; str "beta"]
                      (snd (ExtractText failing_store_env notes_txt
                              (snd (log_Println [str "Indexing:"; notes_txt]
                                                world0))))))
              [str "alpha"; str "beta"]
              [repeat 0%Z 768; repeat 0%Z 768]
              eq_refl eq_refl eq_refl) as (_ & _ & w3 & Hrun & Hf).
  exists w3. split; [exact Hrun|exact Hf].
Defined.

(** X25. A file is stored all or nothing with respect to embedding: when the
    chunk at position [length pre] fails to embed, the iteration ends after
    that request with the embed error logged; the vectors already obtained
    for the earlier chunks are dropped and nothing is inserted. *)
Theorem index_file_embed_failure (env : Env) (f text : gostring)
        (w w1 w2 w3 : World) (pre post : list gostring) (c : gostring)
        (vs : list (list float32)) (e : error) :
  ExtractText env f (snd (log_Println [str "Indexing:"; f] w)) = (Ok text, w1) ->
  ChunkText text = Returns (pre ++ c :: post) ->
  embeds env pre w1 vs w2 ->
  getOllamaEmbedding env c w2 = (Err e, w3) ->
  index_file env f w
  = (Returns tt,
     {| trace := trace w1
                 ++ map embedding_request (pre ++ [c])
                 ++ [EvLog (str "embed error: failed embedding chunk "
                            ++ itoa (length pre) ++ str ": " ++ e)];
        files := files w1 |}).
Proof.
  intros Hext Hchunks Hpre Herr.
  destruct (EmbedChunks_batch_ends env (pre ++ c :: post) w1) as [_ Hfail];
    [destruct pre; discriminate|].
  pose proof (Hfail pre c post vs w2 w3 e eq_refl Hpre Herr) as Hemb.
  destruct (embeds_world env pre w1 w2 vs Hpre) as [Htr Hfs].
  pose proof (getOllamaEmbedding_world env c w2) as Hw3.
  rewrite Herr in Hw3. cbn [snd] in Hw3.
  unfold index_file, bind.
  destruct (log_Println [str "Indexing:"; f] w) as [[] w0] eqn:Hlog.
  cbn [snd] in Hext. rewrite Hext, Hchunks, Hemb, log_Println_world.
  subst w3. cbn [trace files ret]. rewrite Htr, Hfs, map_app.
  rewrite <- !app_assoc. reflexivity.
Qed.

Lemma index_file_embed_failure_witness :
  trace (snd (index_file bad_chunk_env notes_txt world0))
  = [EvLog (str "Indexing: docs/notes.txt"); EvReadFile notes_txt;
     embedding_request (str "alpha"); embedding_request (str "short beta");
     EvLog (str "embed error: failed embedding chunk 1: expected embedding dim 768, got 3")].
Proof.
  rewrite (index_file_embed_failure bad_chunk_env notes_txt
             (str "alpha" ++ nl ++ nl ++ str "short beta" ++ nl ++ nl
              ++ str "gamma")
             world0
             (snd (ExtractText bad_chunk_env notes_txt
                     (snd (log_Println [str "Indexing:"; notes_txt] world0))))
             (snd (getOllamaEmbedding bad_chunk_env (str "alpha")
                     (snd (ExtractText bad_chunk_env notes_txt
                             (snd (log_Println [str "Indexing:"; notes_txt]
                                               world0))))))
             (snd (getOllamaEmbedding bad_chunk_env (str "short beta")
                     (snd (getOllamaEmbedding bad_chunk_env (str "alpha")
                             (snd (ExtractText bad_chunk_env notes_txt
                                     (snd (log_Println
                                             [str "Indexing:"; notes_txt]
                                             world0))))))))
             [str "alpha"] [str "gamma"] (str "short beta")
             [repeat 0%Z 768]
             (str "expected embedding dim 768, got 3")).
  - reflexivity.
  - reflexivity.
  - reflexivity.
  - eapply embeds_cons; [reflexivity|]. apply embeds_nil.
  - reflexivity.
Defined.

Lemma index_file_run (env : Env) :
  (forall (p t : gostring) (w w' : World),
      ExtractText env p w = (Ok t, w') -> (len t + 1000 < 2 ^ 63)%Z) ->
  forall (f : gostring) (w : World),
  exists w' : World,
    index_file env f w = (Returns tt, w')
    /\ extends w w'
    /\ In (EvLog (join_space [str "Indexing:"; f])) (trace w').
Proof.
  intros Hbound f w.
  unfold index_file, bind. rewrite log_Println_world.
  set (w0 := {| trace := trace w ++ [EvLog (join_space [str "Indexing:"; f])];
                files := files w |}).
  assert (H0 : extends w w0) by (eapply extends_trace; reflexivity).
  assert (Hin : In (EvLog (join_space [str "Indexing:"; f])) (trace w0)).
  { unfold w0. cbn [trace]. apply in_or_app. right. left. reflexivity. }
  pose proof (ExtractText_extends env f w0) as H1.
  destruct (ExtractText env f w0) as [[text|err] w1] eqn:Hext; cbn [snd] in H1.
  - destruct (ChunkText_returns text (Hbound f text w0 w1 Hext))
      as [chunks Hchunks].
    rewrite Hchunks.
    pose proof (EmbedChunks_extends env chunks w1) as H2.
    destruct (EmbedChunks env chunks w1) as [[embs|err] w2] eqn:Hemb;
      cbn [snd] in H2.
    + pose proof (EmbedChunks_Ok_inv env chunks w1 w2 embs Hemb) as Hall.
      destruct (insert_loop_run env f chunks embs w2
                  (embeds_length env chunks w1 w2 embs Hall))
        as (w3 & Hrun & _ & H3).
      exists w3. split; [exact Hrun|].
      assert (Hall3 : extends w w3)
        by (eapply extends_trans; [exact H0|];
            eapply extends_trans; [exact H1|];
            eapply extends_trans; [exact H2|exact H3]).
      split; [exact Hall3|].
      apply (extends_In w0 w3); [|exact Hin].
      eapply extends_trans; [exact H1|].
      eapply extends_trans; [exact H2|exact H3].
    + rewrite log_Println_world. eexists. split; [reflexivity|].
      assert (H3 : extends w2 {| trace := trace w2
                                   ++ [EvLog (join_space [str "embed error:";
                                                          err])];
                                 files := files w2 |})
        by (eapply extends_trace; reflexivity).
      split.
      * eapply extends_trans; [exact H0|].
        eapply extends_trans; [exact H1|].
        eapply extends_trans; [exact H2|exact H3].
      * apply (extends_In w0); [|exact Hin].
        eapply extends_trans; [exact H1|].
        eapply extends_trans; [exact H2|exact H3].
  - rewrite log_Println_world. eexists. split; [reflexivity|].
    assert (H3 : extends w1 {| trace := trace w1
                                 ++ [EvLog (join_space [str "skip file:"; f;
                                                        str "err:"; err])];
                               files := files w1 |})
      by (eapply extends_trace; reflexivity).
    split.
    + eapply extends_trans; [exact H0|].
      eapply extends_trans; [exact H1|exact H3].
    + apply (extends_In w0); [|exact Hin].
      eapply extends_trans; [exact H1|exact H3].
Qed.

Lemma index_files_run (env : Env) :
  (forall (p t : gostring) (w w' : World),
      ExtractText env p w = (Ok t, w') -> (len t + 1000 < 2 ^ 63)%Z) ->
  forall (fs : list gostring) (w : World),
  exists w' : World,
    index_files env fs w = (Returns tt, w')
    /\ extends w w'
    /\ forall f : gostring,
         In f fs -> In (EvLog (str "Indexing: " ++ f)) (trace w').
Proof.
  intros Hbound. induction fs as [|f fs IH]; intros w.
  - exists w. split; [reflexivity|]. split; [apply extends_refl|].
    intros f [].
  - destruct (index_file_run env Hbound f w) as (w1 & Hrun & H1 & Hin).
    destruct (IH w1) as (w2 & Hrest & H2 & Hall).
    exists w2. cbn [index_files]. unfold bind. rewrite Hrun.
    split; [exact Hrest|]. split; [eapply extends_trans; eauto|].
    intros g [<-|Hg].
    + apply (extends_In w1 w2 _ H2). exact Hin.
    + apply Hall, Hg.
Qed.


(** X26. No error stops the loop over the files, and its own slicing and
    indexing never panic.  Whenever the external calls made for the files
    return, with a result or with an error, and extracted texts have a
    length a Go string can have, the loop ends normally: it has logged the
    "Indexing:" line of every file of the list, and it has only added to
    the record of calls and to the files on disk.  (A call that never
    returns is not modelled: every collaborator here answers.) *)
Theorem index_files_errors_do_not_stop (env : Env) :
  (forall (p t : gostring) (w w' : World),
      ExtractText env p w = (Ok t, w') -> (len t + 1000 < 2 ^ 63)%Z) ->
  forall (fs : list gostring) (w w' : World) (r : outcome unit),
    index_files env fs w = (r, w') ->
    r = Returns tt
    /\ r <> Panics
    /\ extends w w'
    /\ forall f : gostring,
         In f fs -> In (EvLog (str "Indexing: " ++ f)) (trace w').
Proof.
  intros Hbound fs w w' r Hrun.
  destruct (index_files_run env Hbound fs w) as (w1 & Hrun1 & Hext & Hall).
  rewrite Hrun1 in Hrun. injection Hrun as <- <-.
  split; [reflexivity|]. split; [discriminate|]. split; [exact Hext|exact Hall].
Qed.

Lemma no_pages_env_texts (p t : gostring) (w w' : World) :
  ExtractText no_pages_env p w = (Ok t, w') -> (len t + 1000 < 2 ^ 63)%Z.
Proof.
  assert (Hocr : forall w0 : World,
             exists w1 : World,
               ExtractTextWithOCR no_pages_env p w0 = (Ok [], w1)).
  { intros w0. unfold ExtractTextWithOCR.
    destruct (gostring_eqb (ToLower (Ext p)) (str ".pdf"));
      eexists; reflexivity. }
  unfold ExtractText.
  destruct (ext_in (ToLower (Ext p)) [".txt"; ".md"]%string).
  { intros H. injection H as <- _. vm_compute. reflexivity. }
  destruct (ext_in (ToLower (Ext p)) [".pdf"]%string).
  { unfold bind.
    change (ExtractTextFromPDF no_pages_env p w)
      with (Ok (@nil ascii),
            {| trace := (trace w ++ [EvPdfTextLayer p]) ++ [EvPdftotext p];
               files := files w |}).
    cbv iota beta. change (negb (is_empty (TrimSpace []))) with false.
    cbv iota. intros H.
    destruct (Hocr {| trace := (trace w ++ [EvPdfTextLayer p])
                               ++ [EvPdftotext p];
                      files := files w |}) as [w1 H1].
    rewrite H1 in H. injection H as <- _. vm_compute. reflexivity. }
  destruct (ext_in (ToLower (Ext p)) [".png"; ".jpg"; ".jpeg"]%string).
  { intros H. destruct (Hocr w) as [w1 H1]. rewrite H1 in H.
    injection H as <- _. vm_compute. reflexivity. }
  discriminate.
Qed.

Lemma index_files_errors_do_not_stop_witness :
  fst (index_files no_pages_env [scan_pdf; str "docs/report.docx"; notes_txt]
                   world0) = Returns tt
  /\ In (EvLog (str "Indexing: docs/notes.txt"))
        (trace (snd (index_files no_pages_env
                       [scan_pdf; str "docs/report.docx"; notes_txt] world0))).
Proof.
  destruct (index_files_errors_do_not_stop no_pages_env no_pages_env_texts
              [scan_pdf; str "docs/report.docx"; notes_txt] world0
              (snd (index_files no_pages_env
                      [scan_pdf; str "docs/report.docx"; notes_txt] world0))
              (fst (index_files no_pages_env
                      [scan_pdf; str "docs/report.docx"; notes_txt] world0)))
    as (Hr & _ & _ & Hall).
  - destruct (index_files no_pages_env _ world0). reflexivity.
  - split; [exact Hr|].
    apply (Hall notes_txt). right. right. left. reflexivity.
Defined.
